(** * PostgreSQL -> SQL Server migration tool: type mapping, DDL synthesis
      and batched data copy of [migrator.py], as a shallow embedding.

    Text is modelled by [string] (sequences of 8-bit characters, read as
    ASCII), Python [int] by [Z], an optional catalog value ([None] or an
    [int]) by [option Z].  The two database cursors are explicit state: the
    target cursor records every statement it is asked to execute, the source
    cursor holds the rows still to be fetched. *)

From Stdlib Require Import ZArith List Bool Lia Arith.
From Stdlib Require Import Strings.Ascii Strings.String Numbers.DecimalString.
From Stdlib Require Import Numbers.DecimalPos Numbers.DecimalZ.
From Equations Require Import Equations.
From Equations.Prop Require Import Logic.
Import ListNotations.

Open Scope string_scope.
Open Scope Z_scope.

(* ================================================================= *)
(** ** Python string primitives used by the program *)

Module Py.

(** The characters the source writes as escapes or inside quotes. *)
Definition nl : string := String (ascii_of_nat 10) EmptyString.
Definition dquote_char : ascii := ascii_of_nat 34.
Definition dquote : string := String dquote_char EmptyString.

(** [str.lower()] on ASCII text: only 'A'..'Z' move. *)
Definition lower_char (c : ascii) : ascii :=
  let n := nat_of_ascii c in
  if (Nat.leb 65 n && Nat.leb n 90)%bool then ascii_of_nat (n + 32) else c.

Fixpoint lower (s : string) : string :=
  match s with
  | EmptyString => EmptyString
  | String c s' => String (lower_char c) (lower s')
  end.

(** [str(n)] and the [{n}] of an f-string, for an [int]. *)
Definition str_of_int (n : Z) : string :=
  NilZero.string_of_int (Z.to_int n).

(** Truth value of an optional integer: [None] and [0] are falsy. *)
Definition truthy (v : option Z) : bool :=
  match v with
  | None => false
  | Some n => negb (n =? 0)
  end.

(** [v or d] where [v] is [None] or an [int] and [d] an [int]. *)
Definition or_default (v : option Z) (d : Z) : Z :=
  match v with
  | None => d
  | Some n => if n =? 0 then d else n
  end.

(** [sub in s] and [s.find(sub)]: position of the first occurrence. *)
Fixpoint find (sub s : string) : option nat :=
  if prefix sub s then Some O
  else match s with
       | EmptyString => None
       | String _ s' => option_map S (find sub s')
       end.

Definition contains (sub s : string) : bool :=
  match find sub s with Some _ => true | None => false end.

(** [s[start:stop]] for non-negative bounds. *)
Definition slice (s : string) (start stop : nat) : string :=
  substring start (stop - start) s.

(** [s.replace(c, empty)] for a one-character [c]: every [c] is dropped. *)
Fixpoint remove_char (c : ascii) (s : string) : string :=
  match s with
  | EmptyString => EmptyString
  | String a s' =>
      if Ascii.eqb a c then remove_char c s' else String a (remove_char c s')
  end.

(** [s.split(c)] for a one-character separator: never the empty list. *)
Fixpoint split (c : ascii) (s : string) : list string :=
  match s with
  | EmptyString => [EmptyString]
  | String a s' =>
      if Ascii.eqb a c then EmptyString :: split c s'
      else match split c s' with
           | [] => [String a EmptyString]
           | w :: ws => String a w :: ws
           end
  end.

(** Whitespace in the sense of [str.isspace] on ASCII:
    TAB, LF, VT, FF, CR, the separators FS..US, and the space. *)
Definition is_space (c : ascii) : bool :=
  let n := nat_of_ascii c in
  ((Nat.leb 9 n && Nat.leb n 13) || (Nat.leb 28 n && Nat.leb n 32))%bool.

Fixpoint lstrip (s : string) : string :=
  match s with
  | EmptyString => EmptyString
  | String c s' => if is_space c then lstrip s' else s
  end.

Fixpoint rstrip (s : string) : string :=
  match s with
  | EmptyString => EmptyString
  | String c s' =>
      match rstrip s' with
      | EmptyString => if is_space c then EmptyString else String c EmptyString
      | r => String c r
      end
  end.

Definition strip (s : string) : string := rstrip (lstrip s).

(** [sep.join(parts)] is the library's [concat]. *)
Definition join (sep : string) (parts : list string) : string :=
  concat sep parts.

End Py.

(* ================================================================= *)
(** ** TYPE MAPPING *)

Definition mapping : list (string * string) :=
  [ ("integer", "INT");
    ("int4", "INT");
    ("bigint", "BIGINT");
    ("int8", "BIGINT");
    ("smallint", "SMALLINT");
    ("boolean", "BIT");
    ("date", "DATE");
    ("timestamp without time zone", "DATETIME2");
    ("timestamp with time zone", "DATETIME2");
    ("double precision", "FLOAT");
    ("real", "REAL") ].

Fixpoint dict_get (k : string) (d : list (string * string)) : option string :=
  match d with
  | [] => None
  | (k', v) :: d' => if String.eqb k k' then Some v else dict_get k d'
  end.

Definition map_pg_type (pg_type : string) (length precision scale : option Z)
    (is_serial : bool) : string :=
  let pg_type := Py.lower pg_type in
  if is_serial then "INT IDENTITY(1,1)"
  else match dict_get pg_type mapping with
  | Some t => t
  | None =>
    if String.eqb pg_type "character varying" then
      match length with
      | Some n =>
          if (negb (Py.truthy length) || (4000 <? n))%bool then "NVARCHAR(MAX)"
          else "NVARCHAR(" ++ Py.str_of_int n ++ ")"
      | None => "NVARCHAR(MAX)"
      end
    else if String.eqb pg_type "text" then "NVARCHAR(MAX)"
    else if (String.eqb pg_type "numeric" || String.eqb pg_type "decimal")%bool then
      "DECIMAL(" ++ Py.str_of_int (Py.or_default precision 18) ++ ","
                 ++ Py.str_of_int (Py.or_default scale 4) ++ ")"
    else "NVARCHAR(MAX)"
  end.

(* ================================================================= *)
(** ** The two cursors *)

(** A cell of a fetched row. *)
Inductive value : Type :=
| VNone
| VInt (n : Z)
| VText (s : string).

Definition row : Type := list value.

Definition str_of_value (v : value) : string :=
  match v with
  | VNone => "None"
  | VInt n => Py.str_of_int n
  | VText s => s
  end.

(** What the target cursor is asked to do, oldest call first. *)
Inductive sql_call : Type :=
| Execute (stmt : string)
| ExecuteMany (stmt : string) (params : list row).

Definition sql_cursor : Type := list sql_call.

Definition sql_execute (stmt : string) (sql : sql_cursor) : sql_cursor :=
  (sql ++ [Execute stmt])%list.

Definition sql_executemany (stmt : string) (params : list row)
    (sql : sql_cursor) : sql_cursor :=
  (sql ++ [ExecuteMany stmt params])%list.

(** The source cursor: the rows of the table being read (already projected
    on the selected columns), the result set not yet fetched, and the
    queries received. *)
Record pg_cursor : Type := mk_pg {
  pg_table : list row;
  pg_pending : list row;
  pg_queries : list string
}.

(** [pg.execute('SELECT COUNT(...) ...')]: one row holding the row count. *)
Definition pg_execute_count (q : string) (pg : pg_cursor) : pg_cursor :=
  {| pg_table := pg_table pg;
     pg_pending := [[VInt (Z.of_nat (List.length (pg_table pg)))]];
     pg_queries := (pg_queries pg ++ [q])%list |}.

(** [pg.execute('SELECT cols FROM ...')]: the table's rows. *)
Definition pg_execute_select (q : string) (pg : pg_cursor) : pg_cursor :=
  {| pg_table := pg_table pg;
     pg_pending := pg_table pg;
     pg_queries := (pg_queries pg ++ [q])%list |}.

Definition pg_fetchone (pg : pg_cursor) : option row * pg_cursor :=
  match pg_pending pg with
  | [] => (None, pg)
  | r :: rest =>
      (Some r, {| pg_table := pg_table pg; pg_pending := rest;
                  pg_queries := pg_queries pg |})
  end.

(** [pg.fetchmany(size)]: the next [size] rows, fewer at the end of the
    result set, none once it is exhausted. *)
Definition pg_fetchmany (size : nat) (pg : pg_cursor) : list row * pg_cursor :=
  (firstn size (pg_pending pg),
   {| pg_table := pg_table pg; pg_pending := skipn size (pg_pending pg);
      pg_queries := pg_queries pg |}).

(** Exceptions the modelled code can raise by itself. *)
Inductive exn : Type :=
| ValueError      (* str.index: substring not found *)
| TypeError       (* subscripting None *)
| IndexError.     (* subscripting an empty row *)

(* ================================================================= *)
(** ** CREATE TABLE *)

Record column : Type := mk_column {
  c_name : string;
  c_data_type : string;
  c_nullable : bool;
  c_length : option Z;
  c_precision : option Z;
  c_scale : option Z;
  c_is_serial : bool
}.

Definition sp4 : string := "    ".
Definition sp8 : string := sp4 ++ sp4.
Definition sp12 : string := sp8 ++ sp4.
Definition sp16 : string := sp8 ++ sp8.

Definition bracket (c : string) : string := "[" ++ c ++ "]".

Definition schema_sql (schema : string) : string :=
  "IF NOT EXISTS (SELECT 1 FROM sys.schemas WHERE name='" ++ schema
    ++ "') EXEC('CREATE SCHEMA [" ++ schema ++ "]');".

Definition null_str (c : column) : string :=
  if (c_nullable c && negb (c_is_serial c))%bool then "NULL" else "NOT NULL".

Definition col_def (c : column) : string :=
  let sql_type :=
    map_pg_type (c_data_type c) (c_length c) (c_precision c) (c_scale c)
                (c_is_serial c) in
  "[" ++ c_name c ++ "] " ++ sql_type ++ " " ++ null_str c.

Definition pk_name (schema table : string) : string :=
  "PK_" ++ schema ++ "_" ++ table.

Definition pk_clause (schema table : string) (pk : list string) : string :=
  match pk with
  | [] => EmptyString
  | _ :: _ =>
      let pk_cols := Py.join ", " (map bracket pk) in
      ", CONSTRAINT [" ++ pk_name schema table ++ "] PRIMARY KEY ("
        ++ pk_cols ++ ")"
  end.

Definition table_guard (schema table : string) : string :=
  "IF OBJECT_ID('" ++ schema ++ "." ++ table ++ "', 'U') IS NULL".

Definition create_sql (schema table : string) (columns : list column)
    (pk : list string) : string :=
  let col_defs := map col_def columns in
  Py.nl ++ sp8 ++ table_guard schema table
    ++ Py.nl ++ sp8 ++ "CREATE TABLE [" ++ schema ++ "].[" ++ table ++ "] ("
    ++ Py.nl ++ sp12 ++ Py.join ", " col_defs
    ++ Py.nl ++ sp12 ++ pk_clause schema table pk
    ++ Py.nl ++ sp8 ++ ");"
    ++ Py.nl ++ sp4.

Definition create_table (sql : sql_cursor) (schema table : string)
    (columns : list column) (pk : list string) : sql_cursor :=
  let sql := sql_execute (schema_sql schema) sql in
  sql_execute (create_sql schema table columns pk) sql.

(* ================================================================= *)
(** ** INDEX MIGRATION *)

Definition unique_kw (idxdef : string) : string :=
  if Py.contains "unique" (Py.lower idxdef) then "UNIQUE" else EmptyString.

(** [idxdef.index(sub)]: position of the first occurrence, or ValueError. *)
Definition str_index (sub s : string) : exn + nat :=
  match Py.find sub s with
  | Some i => inr i
  | None => inl ValueError
  end.

(** The "Extract column list" step. *)
Definition index_cols (idxdef : string) : exn + list string :=
  match str_index "(" idxdef with
  | inl e => inl e
  | inr i =>
      let start := (i + 1)%nat in
      match str_index ")" idxdef with
      | inl e => inl e
      | inr stop =>
          inr (Py.split "," (Py.remove_char Py.dquote_char
                               (Py.slice idxdef start stop)))
      end
  end.

Definition index_name (schema table name : string) : string :=
  "IX_" ++ schema ++ "_" ++ table ++ "_" ++ name.

Definition index_guard (index_name : string) : string :=
  "IF NOT EXISTS (" ++ Py.nl ++ sp16
    ++ "SELECT 1 FROM sys.indexes WHERE name='" ++ index_name ++ "'"
    ++ Py.nl ++ sp12 ++ ")".

Definition index_sql (schema table unique index_name col_list : string)
    : string :=
  Py.nl ++ sp12 ++ index_guard index_name
    ++ Py.nl ++ sp12 ++ "CREATE " ++ unique ++ " INDEX [" ++ index_name ++ "]"
    ++ Py.nl ++ sp12 ++ "ON [" ++ schema ++ "].[" ++ table ++ "] ("
    ++ col_list ++ ");"
    ++ Py.nl ++ sp8.

(** One turn of the loop over the indexes. *)
Definition create_index (sql : sql_cursor) (schema table : string)
    (idx : string * string) : exn + sql_cursor :=
  let (name, idxdef) := idx in
  let unique := unique_kw idxdef in
  match index_cols idxdef with
  | inl e => inl e
  | inr cols =>
      let col_list := Py.join ", " (map (fun c => bracket (Py.strip c)) cols) in
      inr (sql_execute
             (index_sql schema table unique (index_name schema table name)
                        col_list) sql)
  end.

(** The loop: the cursor as the call leaves it, and the exception that
    ended it, if any. *)
Fixpoint create_indexes (sql : sql_cursor) (schema table : string)
    (indexes : list (string * string)) : sql_cursor * option exn :=
  match indexes with
  | [] => (sql, None)
  | idx :: rest =>
      match create_index sql schema table idx with
      | inl e => (sql, Some e)
      | inr sql' => create_indexes sql' schema table rest
      end
  end.

(** The statement one turn of the loop sends, when the definition parses. *)
Definition index_stmt (schema table : string) (idx : string * string)
    : exn + string :=
  match index_cols (snd idx) with
  | inl e => inl e
  | inr cols =>
      inr (index_sql schema table (unique_kw (snd idx))
             (index_name schema table (fst idx))
             (Py.join ", " (map (fun c => bracket (Py.strip c)) cols)))
  end.

(* ================================================================= *)
(** ** FOREIGN KEY MIGRATION *)

Record foreign_key : Type := mk_fk {
  fk_name : string;
  fk_column : string;
  fk_ref_schema : string;
  fk_ref_table : string;
  fk_ref_col : string
}.

Definition fk_constraint_name (schema table name : string) : string :=
  "FK_" ++ schema ++ "_" ++ table ++ "_" ++ name.

Definition fk_sql (schema table : string) (fk : foreign_key) : string :=
  Py.nl ++ sp8 ++ "ALTER TABLE [" ++ schema ++ "].[" ++ table ++ "]"
    ++ Py.nl ++ sp8 ++ "ADD CONSTRAINT ["
    ++ fk_constraint_name schema table (fk_name fk) ++ "]"
    ++ Py.nl ++ sp8 ++ "FOREIGN KEY ([" ++ fk_column fk ++ "])"
    ++ Py.nl ++ sp8 ++ "REFERENCES [" ++ fk_ref_schema fk ++ "].["
    ++ fk_ref_table fk ++ "]([" ++ fk_ref_col fk ++ "]);"
    ++ Py.nl ++ sp8.

Fixpoint create_foreign_keys (sql : sql_cursor) (schema table : string)
    (fks : list foreign_key) : sql_cursor :=
  match fks with
  | [] => sql
  | fk :: rest =>
      create_foreign_keys (sql_execute (fk_sql schema table fk) sql)
                          schema table rest
  end.

(* ================================================================= *)
(** ** DATA COPY *)

Record copy_state : Type := mk_copy {
  cs_pg : pg_cursor;
  cs_sql : sql_cursor;
  cs_copied : Z;
  cs_log : list string
}.

Definition quoted (c : string) : string := Py.dquote ++ c ++ Py.dquote.

Definition count_query (schema table : string) : string :=
  "SELECT COUNT(" ++ "*" ++ ") FROM " ++ quoted schema ++ "." ++ quoted table.

Definition select_query (pg_cols schema table : string) : string :=
  "SELECT " ++ pg_cols ++ " FROM " ++ quoted schema ++ "." ++ quoted table.

Definition insert_sql (schema table sql_cols placeholders : string) : string :=
  "INSERT INTO [" ++ schema ++ "].[" ++ table ++ "] (" ++ sql_cols
    ++ ") VALUES (" ++ placeholders ++ ")".

(** The body of the [while True] loop after a non-empty fetch. *)
Definition copy_batch (stmt : string) (total : value) (batch : list row)
    (pg' : pg_cursor) (st : copy_state) : copy_state :=
  let copied := cs_copied st + Z.of_nat (List.length batch) in
  {| cs_pg := pg';
     cs_sql := sql_executemany stmt batch (cs_sql st);
     cs_copied := copied;
     cs_log := app (cs_log st)
       ["  Copied " ++ Py.str_of_int copied ++ "/" ++ str_of_value total] |}.

Equations? copy_loop (BATCH_SIZE : nat) (stmt : string) (total : value)
    (st : copy_state) : copy_state
  by wf (List.length (pg_pending (cs_pg st))) lt :=
copy_loop BATCH_SIZE stmt total st
  with inspect (pg_fetchmany BATCH_SIZE (cs_pg st)) := {
  | exist _ ([], pg') _ :=
      {| cs_pg := pg'; cs_sql := cs_sql st; cs_copied := cs_copied st;
         cs_log := cs_log st |};
  | exist _ (r :: batch, pg') Hfetch :=
      copy_loop BATCH_SIZE stmt total (copy_batch stmt total (r :: batch) pg' st)
  }.
Proof.
  match goal with H : firstn _ _ = _ :: _ |- _ => rename H into Hfetch end.
  destruct BATCH_SIZE as [|n]; [discriminate|].
  destruct (pg_pending (cs_pg st)) as [|r0 l]; [discriminate|].
  simpl. rewrite length_skipn. lia.
Qed.

Definition copy_data (BATCH_SIZE : nat) (pg : pg_cursor) (sql : sql_cursor)
    (schema table : string) (columns : list column) : exn + copy_state :=
  let col_names := map c_name columns in
  let pg_cols := Py.join ", " (map quoted col_names) in
  let sql_cols := Py.join ", " (map bracket col_names) in
  let placeholders := Py.join ", " (map (fun _ => "?") col_names) in
  let pg := pg_execute_count (count_query schema table) pg in
  match pg_fetchone pg with
  | (None, _) => inl TypeError
  | (Some [], _) => inl IndexError
  | (Some (total :: _), pg) =>
      let log := ["Copying " ++ str_of_value total ++ " rows from "
                    ++ schema ++ "." ++ table] in
      let pg := pg_execute_select (select_query pg_cols schema table) pg in
      inr (copy_loop BATCH_SIZE
             (insert_sql schema table sql_cols placeholders) total
             {| cs_pg := pg; cs_sql := sql; cs_copied := 0; cs_log := log |})
  end.

(** The statements of the calls a cursor received. *)
Definition executed (sql : sql_cursor) : list string :=
  map (fun c => match c with Execute s => s | ExecuteMany s _ => s end) sql.

Definition is_executemany (c : sql_call) : bool :=
  match c with ExecuteMany _ _ => true | Execute _ => false end.

Definition batches (sql : sql_cursor) : list (list row) :=
  flat_map (fun c => match c with ExecuteMany _ b => [b] | Execute _ => [] end) sql.

(** Ceiling of a quotient of integers, for a positive divisor. *)
Definition ceil_div (n b : Z) : Z := (n + b - 1) / b.

(** [sub] occurs somewhere in [s]. *)
Definition occurs_in (sub s : string) : Prop :=
  exists pre post, s = pre ++ sub ++ post.

(** Some substring of [s] is [sub] up to the case of its letters. *)
Definition occurs_ci (sub s : string) : Prop :=
  exists pre mid post, s = pre ++ mid ++ post /\ Py.lower mid = sub.

(** A T-SQL statement is conditional when its first keyword is IF. *)
Definition guarded (stmt : string) : bool := prefix "IF " (Py.lstrip stmt).

(** The type names the mapper knows, once lower-cased. *)
Definition recognized (pg_type : string) : bool :=
  match dict_get pg_type mapping with
  | Some _ => true
  | None =>
      (String.eqb pg_type "character varying" || String.eqb pg_type "text"
       || String.eqb pg_type "numeric" || String.eqb pg_type "decimal")%bool
  end.

(** Searching for the one-character string [c]. *)
Definition char (c : ascii) : string := String c EmptyString.

(* ================================================================= *)
(** ** METADATA FUNCTIONS *)

(** A row of information_schema.columns, with the seven fields get_columns
    selects, in its order. *)
Record catalog_row : Type := mk_catalog_row {
  r_column_name : string;
  r_data_type : string;
  r_is_nullable : string;
  r_character_maximum_length : option Z;
  r_numeric_precision : option Z;
  r_numeric_scale : option Z;
  r_column_default : option string
}.

(** The source database as the catalog queries see it: each query is
    answered for the schema and table it is asked about.  The listing of
    [db_tables] is the one get_tables fetches. *)
Record source_db : Type := mk_db {
  db_tables : list (string * string);
  db_columns : string -> string -> list catalog_row;
  db_primary_key : string -> string -> list string;
  db_indexes : string -> string -> list (string * string);
  db_foreign_keys : string -> string -> list foreign_key;
  db_rows : string -> string -> list row
}.

(** Truth value of [row[6] and isinstance(row[6], str) and
    row[6].startswith("nextval")], for a default that is None or a str. *)
Definition is_serial_of (column_default : option string) : bool :=
  match column_default with
  | None => false
  | Some d => (negb (String.eqb d EmptyString) && prefix "nextval" d)%bool
  end.

Definition column_of_row (r : catalog_row) : column :=
  {| c_name := r_column_name r;
     c_data_type := r_data_type r;
     c_nullable := String.eqb (r_is_nullable r) "YES";
     c_length := r_character_maximum_length r;
     c_precision := r_numeric_precision r;
     c_scale := r_numeric_scale r;
     c_is_serial := is_serial_of (r_column_default r) |}.

Definition get_tables (db : source_db) : list (string * string) :=
  db_tables db.

Definition get_columns (db : source_db) (schema table : string) : list column :=
  map column_of_row (db_columns db schema table).

Definition get_primary_key (db : source_db) (schema table : string)
    : list string :=
  db_primary_key db schema table.

Definition get_indexes (db : source_db) (schema table : string)
    : list (string * string) :=
  db_indexes db schema table.

Definition get_foreign_keys (db : source_db) (schema table : string)
    : list foreign_key :=
  db_foreign_keys db schema table.

(* ================================================================= *)
(** ** MAIN *)

(** The source cursor when the data queries address a table: the catalog
    queries before them were read to the end. *)
Definition pg_on_table (db : source_db) (schema table : string)
    (pg : pg_cursor) : pg_cursor :=
  {| pg_table := db_rows db schema table;
     pg_pending := [];
     pg_queries := pg_queries pg |}.

(** One turn of the loop of migrate: both cursors as the turn leaves them
    and the exception that ended it, if any. *)
Definition migrate_table (BATCH_SIZE : nat) (db : source_db)
    (pg : pg_cursor) (sql : sql_cursor) (t : string * string)
    : pg_cursor * sql_cursor * option exn :=
  let (schema, table) := t in
  let cols := get_columns db schema table in
  let pk := get_primary_key db schema table in
  let indexes := get_indexes db schema table in
  let fks := get_foreign_keys db schema table in
  let sql := create_table sql schema table cols pk in
  match copy_data BATCH_SIZE (pg_on_table db schema table pg) sql
                  schema table cols with
  | inl e => (pg, sql, Some e)
  | inr st =>
      match create_indexes (cs_sql st) schema table indexes with
      | (sql, Some e) => (cs_pg st, sql, Some e)
      | (sql, None) =>
          (cs_pg st, create_foreign_keys sql schema table fks, None)
      end
  end.

Fixpoint migrate_tables (BATCH_SIZE : nat) (db : source_db)
    (pg : pg_cursor) (sql : sql_cursor) (tables : list (string * string))
    : pg_cursor * sql_cursor * option exn :=
  match tables with
  | [] => (pg, sql, None)
  | t :: rest =>
      match migrate_table BATCH_SIZE db pg sql t with
      | (pg', sql', Some e) => (pg', sql', Some e)
      | (pg', sql', None) => migrate_tables BATCH_SIZE db pg' sql' rest
      end
  end.

Definition migrate (BATCH_SIZE : nat) (db : source_db)
    : pg_cursor * sql_cursor * option exn :=
  let pg := {| pg_table := []; pg_pending := []; pg_queries := [] |} in
  migrate_tables BATCH_SIZE db pg [] (get_tables db).

(* ================================================================= *)
(** ** Vocabulary of the further properties *)

(** The target types the mapper can produce. *)
Definition fixed_types : list string :=
  [ "INT IDENTITY(1,1)"; "INT"; "BIGINT"; "SMALLINT"; "BIT"; "DATE";
    "DATETIME2"; "FLOAT"; "REAL"; "NVARCHAR(MAX)" ].

Definition target_type (ty : string) : Prop :=
  In ty fixed_types
  \/ (exists n, n <> 0 /\ n <= 4000
        /\ ty = "NVARCHAR(" ++ Py.str_of_int n ++ ")")
  \/ (exists p s, p <> 0 /\ s <> 0
        /\ ty = "DECIMAL(" ++ Py.str_of_int p ++ "," ++ Py.str_of_int s ++ ")").

(** The definition can be parsed: it has both parentheses. *)
Definition parses (idx : string * string) : Prop :=
  occurs_in "(" (snd idx) /\ occurs_in ")" (snd idx).

(** The statement of an index whose definition parses; the empty statement
    stands for the others. *)
Definition index_stmt_of (schema table : string) (idx : string * string)
    : string :=
  match index_stmt schema table idx with
  | inr stmt => stmt
  | inl _ => EmptyString
  end.

(** The bulk inserts of a table: its rows cut into chunks of [size]. *)
Fixpoint chunks_of (fuel size : nat) (rows : list row) : list (list row) :=
  match fuel with
  | O => []
  | S fuel' =>
      match firstn size rows with
      | [] => []
      | batch => batch :: chunks_of fuel' size (skipn size rows)
      end
  end.

Definition chunks (size : nat) (rows : list row) : list (list row) :=
  chunks_of (List.length rows) size rows.

(** The calls one table adds to the target when nothing raises. *)
Definition table_calls (BATCH_SIZE : nat) (db : source_db)
    (t : string * string) : list sql_call :=
  let (schema, table) := t in
  let cols := get_columns db schema table in
  let names := map c_name cols in
  ([ Execute (schema_sql schema);
     Execute (create_sql schema table cols (get_primary_key db schema table)) ]
   ++ map (ExecuteMany
             (insert_sql schema table (Py.join ", " (map bracket names))
                (Py.join ", " (map (fun _ => "?") names))))
          (chunks BATCH_SIZE (db_rows db schema table))
   ++ map (fun idx => Execute (index_stmt_of schema table idx))
          (get_indexes db schema table)
   ++ map (fun fk => Execute (fk_sql schema table fk))
          (get_foreign_keys db schema table))%list.

(** The running totals the progress lines report. *)
Fixpoint running_totals (acc : Z) (batches : list (list row)) : list Z :=
  match batches with
  | [] => []
  | b :: rest =>
      let acc' := acc + Z.of_nat (List.length b) in
      acc' :: running_totals acc' rest
  end.

Definition progress_line (total : value) (copied : Z) : string :=
  "  Copied " ++ Py.str_of_int copied ++ "/" ++ str_of_value total.

(** Every index definition of the table can be parsed. *)
Definition indexes_parse (db : source_db) (t : string * string) : Prop :=
  Forall parses (get_indexes db (fst t) (snd t)).

(** What a table adds to the target before create_indexes is called. *)
Definition table_calls_before_indexes (BATCH_SIZE : nat) (db : source_db)
    (t : string * string) : list sql_call :=
  let (schema, table) := t in
  let cols := get_columns db schema table in
  let names := map c_name cols in
  ([ Execute (schema_sql schema);
     Execute (create_sql schema table cols (get_primary_key db schema table)) ]
   ++ map (ExecuteMany
             (insert_sql schema table (Py.join ", " (map bracket names))
                (Py.join ", " (map (fun _ => "?") names))))
          (chunks BATCH_SIZE (db_rows db schema table)))%list.

(* ================================================================= *)
(** ** Sample inputs *)

Definition email_col : column :=
  {| c_name := "email"; c_data_type := "character varying";
     c_nullable := false; c_length := Some 255; c_precision := None;
     c_scale := None; c_is_serial := false |}.

Definition five_rows : pg_cursor :=
  {| pg_table := [[VInt 1]; [VInt 2]; [VInt 3]; [VInt 4]; [VInt 5]];
     pg_pending := []; pg_queries := [] |}.

Definition created_at : column :=
  {| c_name := "created_at"; c_data_type := "timestamp without time zone";
     c_nullable := true; c_length := None; c_precision := None;
     c_scale := None; c_is_serial := false |}.

Definition id_serial : column :=
  {| c_name := "id"; c_data_type := "integer";
     c_nullable := true; c_length := None; c_precision := Some 32;
     c_scale := Some 0; c_is_serial := true |}.

Definition idx_on_unique_code : string :=
  "CREATE INDEX idx_code ON public.items USING btree (Unique_code)".

Definition idx_two_columns : string :=
  "CREATE INDEX i ON public.t USING btree (a, " ++ Py.dquote ++ "B" ++ Py.dquote
    ++ ")".

Definition bigserial_row : catalog_row :=
  {| r_column_name := "id"; r_data_type := "bigint"; r_is_nullable := "YES";
     r_character_maximum_length := None; r_numeric_precision := Some 64;
     r_numeric_scale := Some 0;
     r_column_default := Some "nextval('t_id_seq'::regclass)" |}.

Definition note_row : catalog_row :=
  {| r_column_name := "note"; r_data_type := "text"; r_is_nullable := "yes";
     r_character_maximum_length := None; r_numeric_precision := None;
     r_numeric_scale := None; r_column_default := Some "NEXTVAL('s')" |}.

Definition orders_fk : foreign_key :=
  {| fk_name := "orders_customer_fk"; fk_column := "customer_id";
     fk_ref_schema := "public"; fk_ref_table := "customers";
     fk_ref_col := "id" |}.

Definition int_row (name : string) (default : option string) : catalog_row :=
  {| r_column_name := name; r_data_type := "integer"; r_is_nullable := "NO";
     r_character_maximum_length := None; r_numeric_precision := Some 32;
     r_numeric_scale := Some 0; r_column_default := default |}.

Definition name_row : catalog_row :=
  {| r_column_name := "name"; r_data_type := "character varying";
     r_is_nullable := "YES"; r_character_maximum_length := Some 100;
     r_numeric_precision := None; r_numeric_scale := None;
     r_column_default := None |}.

(** Two tables; orders, listed first, refers to customers. *)
Definition sample_db : source_db :=
  {| db_tables := [("public", "orders"); ("public", "customers")];
     db_columns := fun _ t =>
       if String.eqb t "orders"
       then [int_row "id" (Some "nextval('orders_id_seq'::regclass)");
             int_row "customer_id" None]
       else [int_row "id" None; name_row];
     db_primary_key := fun _ _ => ["id"];
     db_indexes := fun _ t =>
       if String.eqb t "orders"
       then [("orders_customer_idx",
              "CREATE INDEX orders_customer_idx ON public.orders USING btree (customer_id)")]
       else [];
     db_foreign_keys := fun _ t =>
       if String.eqb t "orders" then [orders_fk] else [];
     db_rows := fun _ t =>
       if String.eqb t "orders"
       then [[VInt 1; VInt 7]; [VInt 2; VInt 7]; [VInt 3; VInt 8]]
       else [[VInt 7; VText "Ada"]; [VInt 8; VText "Grace"]] |}.

(** The same, with an index definition on orders that has no parentheses. *)
Definition broken_db : source_db :=
  {| db_tables := db_tables sample_db;
     db_columns := db_columns sample_db;
     db_primary_key := db_primary_key sample_db;
     db_indexes := fun _ t =>
       if String.eqb t "orders"
       then [("broken", "CREATE INDEX broken ON public.orders")]
       else [];
     db_foreign_keys := db_foreign_keys sample_db;
     db_rows := db_rows sample_db |}.

(** The two catalog rows of a two-column foreign key: one constraint
    name, one row per column. *)
Definition composite_fk : list foreign_key :=
  [ {| fk_name := "lines_order_fk"; fk_column := "order_id";
       fk_ref_schema := "public"; fk_ref_table := "orders";
       fk_ref_col := "id" |};
    {| fk_name := "lines_order_fk"; fk_column := "order_rev";
       fk_ref_schema := "public"; fk_ref_table := "orders";
       fk_ref_col := "rev" |} ].

(* ================================================================= *)
(** * Properties *)

(** ** Strings *)

Section StringFacts.

Lemma append_nil_r (s : string) : s ++ EmptyString = s.
Proof. induction s as [|c s IH]; simpl; [reflexivity | now rewrite IH]. Qed.

Lemma append_assoc (a b c : string) : (a ++ b) ++ c = a ++ b ++ c.
Proof. induction a as [|x a IH]; simpl; [reflexivity | now rewrite IH]. Qed.

Lemma length_append (a b : string) :
  String.length (a ++ b) = (String.length a + String.length b)%nat.
Proof. induction a as [|x a IH]; simpl; [reflexivity | now rewrite IH]. Qed.

Lemma append_inv_head (a b c : string) : a ++ b = a ++ c -> b = c.
Proof.
  induction a as [|x a IH]; simpl; intros H; [assumption|].
  injection H as H. now apply IH.
Qed.

Lemma prefix_iff (a s : string) :
  prefix a s = true <-> exists r, s = a ++ r.
Proof.
  revert s. induction a as [|x a IH]; intros s.
  - destruct s; simpl; split; eauto.
  - destruct s as [|y s]; simpl.
    + split; [discriminate | intros [r Hr]; discriminate].
    + destruct (ascii_dec x y) as [->|Hxy].
      * rewrite IH. split; intros [r Hr]; exists r; congruence.
      * split; [discriminate | intros [r Hr]; congruence].
Qed.

Lemma prefix_append (a r : string) : prefix a (a ++ r) = true.
Proof. apply prefix_iff. now exists r. Qed.

Lemma find_unfold (sub s : string) :
  Py.find sub s =
  if prefix sub s then Some O
  else match s with
       | EmptyString => None
       | String _ s' => option_map S (Py.find sub s')
       end.
Proof. destruct s; reflexivity. Qed.

Lemma find_Some_split (sub s : string) (i : nat) :
  Py.find sub s = Some i ->
  exists pre post, s = pre ++ sub ++ post /\ String.length pre = i.
Proof.
  revert i. induction s as [|c s IH]; intros i; rewrite find_unfold;
    destruct (prefix sub _) eqn:Hp.
  - intros [= <-]. apply prefix_iff in Hp as [r Hr].
    exists EmptyString, r. split; [exact Hr | reflexivity].
  - discriminate.
  - intros [= <-]. apply prefix_iff in Hp as [r Hr].
    exists EmptyString, r. split; [exact Hr | reflexivity].
  - destruct (Py.find sub s) as [j|]; [|discriminate].
    simpl. intros [= <-].
    destruct (IH j eq_refl) as (pre & post & -> & Hlen).
    exists (String c pre), post. simpl. split; [reflexivity | now rewrite Hlen].
Qed.

Lemma find_None_append (sub pre post : string) :
  Py.find sub (pre ++ sub ++ post) <> None.
Proof.
  induction pre as [|c pre IH]; rewrite find_unfold.
  - simpl. rewrite prefix_append. discriminate.
  - destruct (prefix sub _); [discriminate|]. simpl.
    destruct (Py.find sub (pre ++ sub ++ post)); [discriminate | contradiction].
Qed.

Lemma contains_iff (sub s : string) :
  Py.contains sub s = true <-> occurs_in sub s.
Proof.
  unfold Py.contains, occurs_in. split.
  - destruct (Py.find sub s) as [i|] eqn:Hf; [|discriminate].
    intros _. destruct (find_Some_split _ _ _ Hf) as (pre & post & H & _). eauto.
  - intros (pre & post & ->).
    destruct (Py.find sub (pre ++ sub ++ post)) eqn:Hf; [reflexivity|].
    now apply find_None_append in Hf.
Qed.

Lemma find_None_iff (sub s : string) :
  Py.find sub s = None <-> ~ occurs_in sub s.
Proof.
  rewrite <- contains_iff. unfold Py.contains.
  destruct (Py.find sub s); split; intros H; try discriminate; try reflexivity.
  now elim H.
Qed.

End StringFacts.

(* ================================================================= *)
(** ** Type mapper *)

Section TypeMapper.

Variables (pg_type : string) (length precision scale : option Z).

Lemma mapping_values_nonempty (k t : string) :
  dict_get k mapping = Some t -> t <> EmptyString.
Proof.
  unfold mapping. simpl.
  repeat (destruct (String.eqb k _); [intros [= <-]; discriminate|]).
  discriminate.
Qed.

Lemma map_pg_type_nonempty (is_serial : bool) :
  map_pg_type pg_type length precision scale is_serial <> EmptyString.
Proof.
  unfold map_pg_type. destruct is_serial; [discriminate|].
  destruct (dict_get _ mapping) eqn:Hd.
  - now apply mapping_values_nonempty in Hd.
  - repeat match goal with
           | |- context [if ?b then _ else _] => destruct b
           | |- context [match ?o with Some _ => _ | None => _ end] => destruct o
           end; discriminate.
Qed.

Lemma map_pg_type_fallback :
  recognized (Py.lower pg_type) = false ->
  map_pg_type pg_type length precision scale false = "NVARCHAR(MAX)".
Proof.
  unfold recognized, map_pg_type.
  destruct (dict_get _ mapping); [discriminate|].
  destruct (String.eqb _ "character varying"); [discriminate|].
  destruct (String.eqb _ "text"); [discriminate|].
  destruct (String.eqb _ "numeric"); [discriminate|].
  destruct (String.eqb _ "decimal"); [discriminate|].
  reflexivity.
Qed.

Lemma map_pg_type_varchar (is_serial : bool) :
  Py.lower pg_type = "character varying" ->
  map_pg_type pg_type length precision scale is_serial =
    if is_serial then "INT IDENTITY(1,1)"
    else match length with
         | None => "NVARCHAR(MAX)"
         | Some n => if ((n =? 0) || (4000 <? n))%bool then "NVARCHAR(MAX)"
                     else "NVARCHAR(" ++ Py.str_of_int n ++ ")"
         end.
Proof.
  intros Ht. unfold map_pg_type. rewrite Ht. destruct is_serial; [reflexivity|].
  simpl. destruct length as [n|]; [|reflexivity].
  simpl. now rewrite Bool.negb_involutive.
Qed.

Lemma map_pg_type_decimal (is_serial : bool) :
  Py.lower pg_type = "numeric" \/ Py.lower pg_type = "decimal" ->
  map_pg_type pg_type length precision scale is_serial =
    if is_serial then "INT IDENTITY(1,1)"
    else "DECIMAL(" ++ Py.str_of_int (Py.or_default precision 18) ++ ","
                    ++ Py.str_of_int (Py.or_default scale 4) ++ ")".
Proof.
  intros [Ht|Ht]; unfold map_pg_type; rewrite Ht;
    destruct is_serial; reflexivity.
Qed.

End TypeMapper.

(** C1, as the code has it: the mapper returns a non-empty type for every
    input; a type name it does not recognize gives the unbounded text type
    NVARCHAR(MAX) when the column is not autoincrement, and the
    autoincrement type when it is. *)
Theorem map_pg_type_total (pg_type : string) (length precision scale : option Z)
    (is_serial : bool) :
  map_pg_type pg_type length precision scale is_serial <> EmptyString
  /\ (recognized (Py.lower pg_type) = false ->
      map_pg_type pg_type length precision scale is_serial
        = if is_serial then "INT IDENTITY(1,1)" else "NVARCHAR(MAX)").
Proof.
  split; [apply map_pg_type_nonempty|].
  intros Hr. destruct is_serial; [reflexivity|].
  now apply map_pg_type_fallback.
Qed.

Lemma map_pg_type_total_witness :
  recognized (Py.lower "UUID") = false
  /\ map_pg_type "UUID" None None None false = "NVARCHAR(MAX)".
Proof.
  split; [reflexivity|].
  exact (proj2 (map_pg_type_total "UUID" None None None false) eq_refl).
Defined.

(** C1 as stated fails: an unrecognized type name on an autoincrement column
    does not fall back to NVARCHAR(MAX). *)
Lemma map_pg_type_fallback_counterexample :
  recognized (Py.lower "uuid") = false
  /\ map_pg_type "uuid" None None None true <> "NVARCHAR(MAX)".
Proof. split; [reflexivity | discriminate]. Qed.

(** C2: an autoincrement column is mapped to INT IDENTITY(1,1) whatever its
    declared type, length, precision and scale. *)
Theorem map_pg_type_autoincrement (pg_type : string)
    (length precision scale : option Z) :
  map_pg_type pg_type length precision scale true = "INT IDENTITY(1,1)".
Proof. reflexivity. Qed.

(** C3, as the code has it: for a non-autoincrement 'character varying'
    column, a length that is given, is not zero and is at most 4000 gives
    NVARCHAR(length); an absent length, a zero length and a length above
    4000 give NVARCHAR(MAX). *)
Theorem map_pg_type_varchar_boundary (pg_type : string)
    (length precision scale : option Z) :
  Py.lower pg_type = "character varying" ->
  (forall n, length = Some n -> n <> 0 -> n <= 4000 ->
     map_pg_type pg_type length precision scale false
       = "NVARCHAR(" ++ Py.str_of_int n ++ ")")
  /\ (length = None \/ length = Some 0
      \/ (exists n, length = Some n /\ 4000 < n) ->
     map_pg_type pg_type length precision scale false = "NVARCHAR(MAX)").
Proof.
  intros Ht. rewrite (map_pg_type_varchar _ _ _ _ _ Ht). split.
  - intros n -> Hn0 Hn.
    destruct (Z.eqb_spec n 0); [contradiction|].
    destruct (Z.ltb_spec 4000 n); [lia | reflexivity].
  - intros [-> | [-> | (n & -> & Hn)]]; try reflexivity.
    destruct (Z.ltb_spec 4000 n); [|lia].
    now rewrite Bool.orb_true_r.
Qed.

Lemma map_pg_type_varchar_boundary_witness :
  map_pg_type "character varying" (Some 255) None None false = "NVARCHAR(255)"
  /\ map_pg_type "Character Varying" (Some 5000) None None false
       = "NVARCHAR(MAX)".
Proof.
  split.
  - apply (proj1 (map_pg_type_varchar_boundary "character varying" (Some 255)
                    None None eq_refl) 255 eq_refl); lia.
  - apply (proj2 (map_pg_type_varchar_boundary "Character Varying" (Some 5000)
                    None None eq_refl)).
    right; right. exists 5000. split; [reflexivity | lia].
Defined.

(** C3 as stated fails at the given length 0, which is at most 4000. *)
Lemma map_pg_type_varchar_zero_counterexample :
  0 <= 4000
  /\ map_pg_type "character varying" (Some 0) None None false
       <> "NVARCHAR(" ++ Py.str_of_int 0 ++ ")".
Proof. split; [lia | discriminate]. Qed.

(** C4 at a column declared numeric(10,0): the given scale 0 is replaced by
    the default 4. *)
Theorem map_pg_type_decimal_scale_zero :
  map_pg_type "numeric" None (Some 10) (Some 0) false = "DECIMAL(10,4)"
  /\ map_pg_type "numeric" None (Some 10) (Some 0) false
       <> "DECIMAL(" ++ Py.str_of_int 10 ++ "," ++ Py.str_of_int 0 ++ ")".
Proof. split; [reflexivity | discriminate]. Qed.

(** What the decimal branch does on every input: a given precision or scale
    is used unless it is zero. *)
Lemma map_pg_type_decimal_nonzero (pg_type : string)
    (length : option Z) (p s : Z) :
  Py.lower pg_type = "numeric" \/ Py.lower pg_type = "decimal" ->
  p <> 0 -> s <> 0 ->
  map_pg_type pg_type length (Some p) (Some s) false
    = "DECIMAL(" ++ Py.str_of_int p ++ "," ++ Py.str_of_int s ++ ")".
Proof.
  intros Ht Hp Hs. rewrite (map_pg_type_decimal _ _ _ _ _ Ht). simpl.
  destruct (Z.eqb_spec p 0); [contradiction|].
  destruct (Z.eqb_spec s 0); [contradiction|]. reflexivity.
Qed.

Example map_numeric_10_2 :
  map_pg_type "numeric" None (Some 10) (Some 2) false = "DECIMAL(10,2)".
Proof. reflexivity. Qed.

Example map_numeric_default :
  map_pg_type "numeric" None None None false = "DECIMAL(18,4)".
Proof. reflexivity. Qed.

(** The decimal numeral of an integer determines it: two lengths that give
    the same NVARCHAR(n) are the same length. *)
Lemma to_int_not_nil (n : Z) :
  Z.to_int n <> Decimal.Pos Decimal.Nil /\ Z.to_int n <> Decimal.Neg Decimal.Nil.
Proof.
  destruct n as [|p|p]; simpl; split; try discriminate;
    intros [= H]; now apply (Unsigned.to_uint_nonnil p).
Qed.

Lemma str_of_int_inj (a b : Z) : Py.str_of_int a = Py.str_of_int b -> a = b.
Proof.
  unfold Py.str_of_int. intros H.
  apply (f_equal NilZero.int_of_string) in H.
  destruct (to_int_not_nil a) as [Ha1 Ha2], (to_int_not_nil b) as [Hb1 Hb2].
  rewrite !NilZero.isi in H by assumption. injection H as E.
  apply (f_equal Z.of_int) in E. now rewrite !DecimalZ.of_to in E.
Qed.

Lemma nvarchar_length_exact (t : string) (n m : Z) :
  Py.lower t = "character varying" ->
  n <> 0 -> n <= 4000 -> m <> 0 -> m <= 4000 ->
  map_pg_type t (Some n) None None false = map_pg_type t (Some m) None None false ->
  n = m.
Proof.
  intros Ht Hn0 Hn Hm0 Hm.
  rewrite !(map_pg_type_varchar _ _ _ _ _ Ht).
  destruct (Z.eqb_spec n 0); [contradiction|].
  destruct (Z.eqb_spec m 0); [contradiction|].
  destruct (Z.ltb_spec 4000 n); [lia|]. destruct (Z.ltb_spec 4000 m); [lia|].
  simpl. intros Heq. apply append_inv_head with (a := "NVARCHAR(") in Heq.
  assert (Hcut : forall x y : string, x ++ ")" = y ++ ")" -> x = y).
  { induction x as [|c x IH]; intros [|d y] E; simpl in E;
      try reflexivity.
    - injection E as _ E. now destruct y.
    - injection E as _ E. now destruct x.
    - injection E as -> E. f_equal. now apply IH. }
  now apply str_of_int_inj, Hcut.
Qed.

(* ================================================================= *)
(** ** Data copy *)

Section DataCopy.

Lemma ceil_div_zero (b : Z) : 0 < b -> ceil_div 0 b = 0.
Proof. intros Hb. unfold ceil_div. apply Z.div_small. lia. Qed.

Lemma ceil_div_last (n b : Z) : 0 < n <= b -> ceil_div n b = 1.
Proof.
  intros Hn. unfold ceil_div.
  replace (n + b - 1) with (n - 1 + 1 * b) by lia.
  rewrite Z.div_add by lia. rewrite Z.div_small; lia.
Qed.

Lemma ceil_div_step (n b : Z) :
  0 < b -> b < n -> ceil_div n b = 1 + ceil_div (n - b) b.
Proof.
  intros Hb Hn. unfold ceil_div.
  replace (n + b - 1) with (n - b + b - 1 + 1 * b) by lia.
  rewrite Z.div_add by lia. lia.
Qed.

(** One fetch of at most [B] rows followed by the rest of the loop costs one
    call more than the rest. *)
Lemma ceil_div_fetch (B : nat) (pending : list row) :
  (0 < B)%nat -> pending <> [] ->
  ceil_div (Z.of_nat (List.length pending)) (Z.of_nat B)
    = 1 + ceil_div (Z.of_nat (List.length (skipn B pending))) (Z.of_nat B).
Proof.
  intros HB Hne. rewrite length_skipn.
  assert (0 < List.length pending)%nat by (destruct pending; simpl; [easy | lia]).
  destruct (Nat.le_gt_cases (List.length pending) B) as [Hle|Hgt].
  - replace (List.length pending - B)%nat with 0%nat by lia.
    rewrite ceil_div_zero by lia. rewrite ceil_div_last; lia.
  - rewrite ceil_div_step by lia. f_equal. f_equal. lia.
Qed.

Variables (BATCH_SIZE : nat) (stmt : string) (total : value).
Hypothesis BATCH_SIZE_pos : (0 < BATCH_SIZE)%nat.

(** The loop sends the pending rows, in order, cut into chunks of at most
    [BATCH_SIZE] rows, one bulk insert per chunk. *)
Lemma copy_loop_spec (st : copy_state) :
  exists chunks : list (list row),
    cs_sql (copy_loop BATCH_SIZE stmt total st)
      = (cs_sql st ++ map (ExecuteMany stmt) chunks)%list
    /\ List.concat chunks = pg_pending (cs_pg st)
    /\ Z.of_nat (List.length chunks)
       = ceil_div (Z.of_nat (List.length (pg_pending (cs_pg st))))
                  (Z.of_nat BATCH_SIZE)
    /\ cs_copied (copy_loop BATCH_SIZE stmt total st)
       = cs_copied st + Z.of_nat (List.length (pg_pending (cs_pg st)))
    /\ Forall (fun b => b <> [] /\ (List.length b <= BATCH_SIZE)%nat) chunks
    /\ pg_pending (cs_pg (copy_loop BATCH_SIZE stmt total st)) = [].
Proof.
  funelim (copy_loop BATCH_SIZE stmt total st).
  - (* the fetch is empty: break *)
    match goal with H : firstn _ _ = [] |- _ => rename H into Hfetch end.
    assert (Hp : pg_pending (cs_pg st) = []).
    { destruct BATCH_SIZE; [lia|].
      destruct (pg_pending (cs_pg st)); [reflexivity | discriminate]. }
    exists []. simpl. rewrite Hp, skipn_nil, app_nil_r. simpl.
    rewrite ceil_div_zero by lia.
    repeat split; try reflexivity; try lia. constructor.
  - (* a batch was fetched: one executemany, then loop *)
    match goal with H : firstn _ _ = _ :: _ |- _ => rename H into Hfetch end.
    match goal with IH : exists _, _ |- _ =>
      destruct IH as (chunks & Hsql & Hcat & Hlen & Hcop & Hall & Hend)
    end.
    match goal with |- context [copy_loop ?b ?s ?t ?x] =>
      set (st' := copy_loop b s t x) in *
    end.
    unfold copy_batch in Hsql, Hcat, Hlen, Hcop.
    cbn [cs_sql cs_copied cs_pg pg_pending] in Hsql, Hcat, Hlen, Hcop.
    exists ((r :: batch) :: chunks).
    assert (Hne : pg_pending (cs_pg st) <> []).
    { intros E. rewrite E, firstn_nil in Hfetch. discriminate. }
    repeat split.
    + rewrite Hsql. unfold sql_executemany. rewrite <- app_assoc. reflexivity.
    + change (List.concat ((r :: batch) :: chunks))
        with ((r :: batch) ++ List.concat chunks)%list.
      rewrite Hcat, <- Hfetch. apply firstn_skipn.
    + rewrite (ceil_div_fetch _ _ BATCH_SIZE_pos Hne), <- Hlen.
      simpl List.length. lia.
    + rewrite Hcop.
      assert (Hl : List.length (pg_pending (cs_pg st))
                   = (List.length (r :: batch)
                      + List.length (skipn BATCH_SIZE (pg_pending (cs_pg st))))%nat)
        by (rewrite <- Hfetch, <- length_app, firstn_skipn; reflexivity).
      rewrite Hl. lia.
    + constructor; [|exact Hall]. split; [discriminate|].
      rewrite <- Hfetch, length_firstn. lia.
    + exact Hend.
Qed.

End DataCopy.

Lemma batches_executemany (stmt : string) (chunks : list (list row)) :
  batches (map (ExecuteMany stmt) chunks) = chunks.
Proof.
  unfold batches. induction chunks as [|b bs IH]; simpl; [reflexivity|].
  now rewrite IH.
Qed.

Lemma forallb_executemany (stmt : string) (chunks : list (list row)) :
  forallb is_executemany (map (ExecuteMany stmt) chunks) = true.
Proof. induction chunks; simpl; auto. Qed.

(** The count query's answer is the number of rows, so the two subscripts
    in [pg.fetchone()[0]] never raise. *)
Lemma copy_data_runs_loop (BATCH_SIZE : nat) (pg : pg_cursor)
    (sql : sql_cursor) (schema table : string) (columns : list column) :
  exists (stmt : string) (st0 : copy_state),
    copy_data BATCH_SIZE pg sql schema table columns
      = inr (copy_loop BATCH_SIZE stmt
               (VInt (Z.of_nat (List.length (pg_table pg)))) st0)
    /\ cs_sql st0 = sql /\ cs_copied st0 = 0
    /\ pg_pending (cs_pg st0) = pg_table pg.
Proof.
  unfold copy_data, pg_fetchone, pg_execute_count.
  cbn [pg_pending pg_table pg_queries].
  eexists _, _. split; [reflexivity|]. repeat split.
Qed.

(** C5: with a batch size B > 0 and a source table of N rows, copy_data
    returns after exactly ceil(N/B) executemany calls and no other call on
    the target; the batches are the table's rows in order; the copied-row
    counter ends at N, which is what the initial count query returned.  For
    N = 250000 and B = 10000 this is 25 calls. *)
Theorem copy_data_batch_accounting (BATCH_SIZE : nat) (pg : pg_cursor)
    (sql : sql_cursor) (schema table : string) (columns : list column) :
  (0 < BATCH_SIZE)%nat ->
  let N := Z.of_nat (List.length (pg_table pg)) in
  exists (st : copy_state) (calls : list sql_call),
    copy_data BATCH_SIZE pg sql schema table columns = inr st
    /\ cs_sql st = (sql ++ calls)%list
    /\ forallb is_executemany calls = true
    /\ Z.of_nat (List.length calls) = ceil_div N (Z.of_nat BATCH_SIZE)
    /\ List.concat (batches calls) = pg_table pg
    /\ cs_copied st = N
    /\ fst (pg_fetchone (pg_execute_count (count_query schema table) pg))
       = Some [VInt (cs_copied st)]
    /\ (N = 250000 -> Z.of_nat BATCH_SIZE = 10000 ->
        List.length calls = 25%nat).
Proof.
  intros HB N.
  destruct (copy_data_runs_loop BATCH_SIZE pg sql schema table columns)
    as (stmt & st0 & Hrun & Hsql0 & Hcop0 & Hpend0).
  destruct (copy_loop_spec BATCH_SIZE stmt (VInt N) HB st0)
    as (chunks & Hsql & Hcat & Hlen & Hcop & _ & _).
  rewrite Hsql0 in Hsql. rewrite Hpend0 in Hcat, Hlen, Hcop.
  rewrite Hcop0 in Hcop. fold N in Hlen, Hcop. simpl in Hcop.
  exists (copy_loop BATCH_SIZE stmt (VInt N) st0), (map (ExecuteMany stmt) chunks).
  rewrite length_map, batches_executemany, Hcop.
  split; [exact Hrun|].
  split; [exact Hsql|].
  split; [apply forallb_executemany|].
  split; [exact Hlen|].
  split; [exact Hcat|].
  split; [reflexivity|].
  split; [reflexivity|].
  intros HN HBs. rewrite HN, HBs in Hlen.
  change (ceil_div 250000 10000) with 25 in Hlen. lia.
Qed.

Lemma copy_data_batch_accounting_witness :
  (0 < 2)%nat
  /\ exists (st : copy_state) (calls : list sql_call),
       copy_data 2 five_rows [] "public" "t" [] = inr st
       /\ cs_sql st = calls
       /\ Z.of_nat (List.length calls) = 3
       /\ cs_copied st = 5.
Proof.
  split; [lia|].
  destruct (copy_data_batch_accounting 2 five_rows [] "public" "t" [])
    as (st & calls & H1 & H2 & _ & H4 & _ & H6 & _); [lia|].
  exists st, calls. repeat split; assumption.
Defined.

(* ================================================================= *)
(** ** More on strings: prefixes, case, searching for a character *)

Section SearchFacts.

Lemma prefix_nil (s : string) : prefix EmptyString s = true.
Proof. now destruct s. Qed.

Lemma prefix_cons (c : ascii) (a b : string) :
  prefix (String c a) (String c b) = prefix a b.
Proof. simpl. destruct (ascii_dec c c); [reflexivity | contradiction]. Qed.

Lemma prefix_app_cancel (s a b : string) :
  prefix (s ++ a) (s ++ b) = prefix a b.
Proof. induction s as [|c s IH]; [reflexivity|]. simpl append. now rewrite prefix_cons. Qed.

Lemma lstrip_head (c : ascii) (s : string) :
  Py.is_space c = false -> Py.lstrip (String c s) = String c s.
Proof. intros H. simpl. now rewrite H. Qed.

Lemma lower_append (a b : string) :
  Py.lower (a ++ b) = Py.lower a ++ Py.lower b.
Proof. induction a as [|c a IH]; simpl; [reflexivity | now rewrite IH]. Qed.

Lemma lower_split (s a b : string) :
  Py.lower s = a ++ b ->
  exists s1 s2, s = s1 ++ s2 /\ Py.lower s1 = a /\ Py.lower s2 = b.
Proof.
  revert s. induction a as [|x a IH]; intros s H.
  - exists EmptyString, s. auto.
  - destruct s as [|c s]; [discriminate|]. simpl in H. injection H as Hc H.
    destruct (IH _ H) as (s1 & s2 & -> & H1 & H2).
    exists (String c s1), s2. simpl. rewrite Hc, H1. auto.
Qed.

(** [sub in s.lower()] is the search for [sub] without regard to case. *)
Lemma contains_lower_iff (sub s : string) :
  Py.contains sub (Py.lower s) = true <-> occurs_ci sub s.
Proof.
  rewrite contains_iff. unfold occurs_in, occurs_ci. split.
  - intros (pre & post & H).
    apply lower_split in H as (s1 & s23 & -> & <- & H).
    apply lower_split in H as (s2 & s3 & -> & <- & <-). eauto.
  - intros (pre & mid & post & -> & <-).
    exists (Py.lower pre), (Py.lower post). now rewrite !lower_append.
Qed.

Lemma find_char_cons (c a : ascii) (s : string) :
  Py.find (char c) (String a s) =
  if Ascii.eqb c a then Some O else option_map S (Py.find (char c) s).
Proof.
  rewrite find_unfold. unfold char at 1. simpl prefix.
  destruct (ascii_dec c a) as [->|N].
  - now rewrite Ascii.eqb_refl, prefix_nil.
  - apply Ascii.eqb_neq in N. now rewrite N.
Qed.

Lemma find_char_nil (c : ascii) : Py.find (char c) EmptyString = None.
Proof. reflexivity. Qed.

Lemma find_char_skip (c : ascii) (pre rest : string) :
  Py.find (char c) pre = None ->
  Py.find (char c) (pre ++ rest)
    = option_map (Nat.add (String.length pre)) (Py.find (char c) rest).
Proof.
  induction pre as [|a pre IH]; intros H.
  - cbn [append String.length]. destruct (Py.find (char c) rest); reflexivity.
  - rewrite find_char_cons in H. simpl append. rewrite find_char_cons.
    destruct (Ascii.eqb c a); [discriminate|].
    destruct (Py.find (char c) pre); [discriminate|].
    rewrite (IH eq_refl). now destruct (Py.find (char c) rest).
Qed.

Lemma find_char_first (c : ascii) (pre rest : string) :
  Py.find (char c) pre = None ->
  Py.find (char c) (pre ++ String c rest) = Some (String.length pre).
Proof.
  intros H. rewrite (find_char_skip _ _ _ H), find_char_cons, Ascii.eqb_refl.
  simpl. f_equal. lia.
Qed.

Lemma substring_skip (a b : string) (n : nat) :
  substring (String.length a) n (a ++ b) = substring 0 n b.
Proof. induction a as [|c a IH]; simpl; [reflexivity | exact IH]. Qed.

Lemma substring_take (m r : string) :
  substring 0 (String.length m) (m ++ r) = m.
Proof.
  induction m as [|c m IH]; simpl.
  - now destruct r.
  - now rewrite IH.
Qed.

(** The slice between a position and a later one, read off a decomposition
    of the string. *)
Lemma slice_middle (pre mid post : string) (c : ascii) :
  Py.slice (pre ++ String c mid ++ post)
           (String.length pre + 1)
           (String.length pre + 1 + String.length mid) = mid.
Proof.
  unfold Py.slice.
  replace (String.length pre + 1 + String.length mid - (String.length pre + 1))%nat
    with (String.length mid) by lia.
  replace (String.length pre + 1)%nat with (String.length (pre ++ char c))
    by (rewrite length_append; reflexivity).
  replace (pre ++ String c mid ++ post) with ((pre ++ char c) ++ mid ++ post)
    by (rewrite append_assoc; reflexivity).
  rewrite substring_skip. apply substring_take.
Qed.

End SearchFacts.

(* ================================================================= *)
(** ** DDL synthesis *)

Ltac prefix_solve :=
  repeat first
    [ apply prefix_nil
    | apply prefix_append
    | rewrite prefix_cons
    | rewrite prefix_app_cancel
    | progress cbn [append]
    | progress rewrite append_assoc ].

Section Statements.

Variables (schema table : string).

Lemma lstrip_create_sql (columns : list column) (pk : list string) :
  Py.lstrip (create_sql schema table columns pk)
    = "IF OBJECT_ID('" ++ schema ++ "." ++ table ++ "', 'U') IS NULL"
      ++ Py.nl ++ sp8 ++ "CREATE TABLE [" ++ schema ++ "].[" ++ table ++ "] ("
      ++ Py.nl ++ sp12 ++ Py.join ", " (map col_def columns)
      ++ Py.nl ++ sp12 ++ pk_clause schema table pk
      ++ Py.nl ++ sp8 ++ ");" ++ Py.nl ++ sp4.
Proof.
  unfold create_sql, table_guard. rewrite !append_assoc. reflexivity.
Qed.

Lemma lstrip_index_sql (unique iname col_list : string) :
  Py.lstrip (index_sql schema table unique iname col_list)
    = "IF NOT EXISTS (" ++ Py.nl ++ sp16
      ++ "SELECT 1 FROM sys.indexes WHERE name='" ++ iname ++ "'"
      ++ Py.nl ++ sp12 ++ ")"
      ++ Py.nl ++ sp12 ++ "CREATE " ++ unique ++ " INDEX [" ++ iname ++ "]"
      ++ Py.nl ++ sp12 ++ "ON [" ++ schema ++ "].[" ++ table ++ "] ("
      ++ col_list ++ ");" ++ Py.nl ++ sp8.
Proof.
  unfold index_sql, index_guard. rewrite !append_assoc. reflexivity.
Qed.

Lemma lstrip_fk_sql (fk : foreign_key) :
  Py.lstrip (fk_sql schema table fk)
    = "ALTER TABLE [" ++ schema ++ "].[" ++ table ++ "]"
      ++ Py.nl ++ sp8 ++ "ADD CONSTRAINT [FK_" ++ schema ++ "_" ++ table ++ "_"
      ++ fk_name fk ++ "]"
      ++ Py.nl ++ sp8 ++ "FOREIGN KEY ([" ++ fk_column fk ++ "])"
      ++ Py.nl ++ sp8 ++ "REFERENCES [" ++ fk_ref_schema fk ++ "].["
      ++ fk_ref_table fk ++ "]([" ++ fk_ref_col fk ++ "]);"
      ++ Py.nl ++ sp8.
Proof.
  unfold fk_sql, fk_constraint_name. rewrite !append_assoc. reflexivity.
Qed.

Lemma create_table_executed (sql : sql_cursor) (columns : list column)
    (pk : list string) :
  create_table sql schema table columns pk
    = (sql ++ [Execute (schema_sql schema);
               Execute (create_sql schema table columns pk)])%list.
Proof.
  unfold create_table, sql_execute. now rewrite <- app_assoc.
Qed.

Lemma create_foreign_keys_executed (fks : list foreign_key) (sql : sql_cursor) :
  create_foreign_keys sql schema table fks
    = (sql ++ map (fun fk => Execute (fk_sql schema table fk)) fks)%list.
Proof.
  revert sql. induction fks as [|fk fks IH]; intros sql; simpl.
  - now rewrite app_nil_r.
  - rewrite IH. unfold sql_execute. now rewrite <- app_assoc.
Qed.

Lemma create_index_stmt (sql : sql_cursor) (idx : string * string) :
  create_index sql schema table idx
    = match index_stmt schema table idx with
      | inl e => inl e
      | inr stmt => inr (sql_execute stmt sql)
      end.
Proof.
  destruct idx as [name idxdef]. unfold create_index, index_stmt. simpl.
  now destruct (index_cols idxdef).
Qed.

(** The loop over the indexes executes the statements of the definitions
    that parse, in order, up to the first one that does not. *)
Lemma create_indexes_executed (indexes : list (string * string))
    (sql : sql_cursor) :
  exists (done rest : list (string * string)) (stmts : list string),
    indexes = (done ++ rest)%list
    /\ map (index_stmt schema table) done = map inr stmts
    /\ fst (create_indexes sql schema table indexes)
       = (sql ++ map Execute stmts)%list
    /\ match snd (create_indexes sql schema table indexes) with
       | None => rest = []
       | Some e => exists idx rest',
           rest = idx :: rest' /\ index_stmt schema table idx = inl e
       end.
Proof.
  revert sql. induction indexes as [|idx indexes IH]; intros sql.
  - exists [], [], []. simpl. now rewrite app_nil_r.
  - cbn [create_indexes]. rewrite create_index_stmt.
    destruct (index_stmt schema table idx) as [e|stmt] eqn:Hs.
    + exists [], (idx :: indexes), []. simpl. rewrite app_nil_r.
      repeat split. now exists idx, indexes.
    + destruct (IH (sql_execute stmt sql))
        as (done & rest & stmts & -> & Hm & Hf & Hr).
      exists (idx :: done), rest, (stmt :: stmts). simpl.
      rewrite Hs, Hm, Hf. unfold sql_execute. rewrite <- app_assoc.
      repeat split. exact Hr.
Qed.

End Statements.

Lemma occurs_in_trans (a b c : string) :
  occurs_in a b -> occurs_in b c -> occurs_in a c.
Proof.
  intros (p1 & q1 & ->) (p2 & q2 & ->).
  exists (p2 ++ p1), (q1 ++ q2). now rewrite !append_assoc.
Qed.

Lemma occurs_in_join (sep x : string) (l : list string) :
  In x l -> occurs_in x (Py.join sep l).
Proof.
  unfold Py.join. induction l as [|y l IH]; intros Hin; [contradiction|].
  destruct Hin as [->|Hin].
  - destruct l as [|z l]; simpl.
    + exists EmptyString, EmptyString. now rewrite append_nil_r.
    + exists EmptyString. eexists. reflexivity.
  - destruct l as [|z l]; [contradiction|].
    destruct (IH Hin) as (p & q & Hpq).
    exists (y ++ sep ++ p), q.
    change (concat sep (y :: z :: l)) with (y ++ sep ++ concat sep (z :: l)).
    rewrite Hpq. now rewrite !append_assoc.
Qed.

Lemma create_sql_columns (schema table : string) (columns : list column)
    (pk : list string) :
  occurs_in (Py.join ", " (map col_def columns))
            (create_sql schema table columns pk).
Proof.
  unfold occurs_in, create_sql.
  exists (Py.nl ++ sp8 ++ table_guard schema table ++ Py.nl ++ sp8
            ++ "CREATE TABLE [" ++ schema ++ "].[" ++ table ++ "] ("
            ++ Py.nl ++ sp12).
  eexists. rewrite !append_assoc. reflexivity.
Qed.

(** C6: the statements create_table sends begin with an IF guard on the
    target catalog (sys.schemas, OBJECT_ID).  create_indexes sends one
    statement per index, in list order, up to the end of the list or to the
    first definition that does not parse; the statement of an index begins
    with IF NOT EXISTS (SELECT 1 FROM sys.indexes WHERE name=...) on the
    very name IX_{schema}_{table}_{indexname} that its CREATE INDEX then
    creates on [schema].[table].  Every statement create_foreign_keys sends
    is a bare ALTER TABLE ... ADD CONSTRAINT with no guard. *)
Theorem ddl_idempotency_asymmetry (sql : sql_cursor) (schema table : string)
    (columns : list column) (pk : list string)
    (indexes : list (string * string)) (fks : list foreign_key) :
  (create_table sql schema table columns pk
     = (sql ++ [Execute (schema_sql schema);
                Execute (create_sql schema table columns pk)])%list
   /\ guarded (schema_sql schema) = true
   /\ guarded (create_sql schema table columns pk) = true
   /\ prefix ("IF OBJECT_ID('" ++ schema ++ "." ++ table ++ "', 'U') IS NULL"
                ++ Py.nl ++ sp8 ++ "CREATE TABLE [")
             (Py.lstrip (create_sql schema table columns pk)) = true)
  /\ (exists (done rest : list (string * string)) (stmts : list string),
        indexes = (done ++ rest)%list
        /\ fst (create_indexes sql schema table indexes)
           = (sql ++ map Execute stmts)%list
        /\ Forall2 (fun idx stmt =>
             let iname := "IX_" ++ schema ++ "_" ++ table ++ "_" ++ fst idx in
             index_stmt schema table idx = inr stmt
             /\ guarded stmt = true
             /\ prefix ("IF NOT EXISTS (" ++ Py.nl ++ sp16
                         ++ "SELECT 1 FROM sys.indexes WHERE name='"
                         ++ iname ++ "'" ++ Py.nl ++ sp12 ++ ")"
                         ++ Py.nl ++ sp12 ++ "CREATE " ++ unique_kw (snd idx)
                         ++ " INDEX [" ++ iname ++ "]"
                         ++ Py.nl ++ sp12 ++ "ON [" ++ schema ++ "].["
                         ++ table ++ "] (")
                       (Py.lstrip stmt) = true) done stmts
        /\ match snd (create_indexes sql schema table indexes) with
           | None => rest = []
           | Some e => exists idx rest',
               rest = idx :: rest' /\ index_stmt schema table idx = inl e
           end)
  /\ (create_foreign_keys sql schema table fks
        = (sql ++ map (fun fk => Execute (fk_sql schema table fk)) fks)%list
      /\ forall fk,
           guarded (fk_sql schema table fk) = false
           /\ prefix ("ALTER TABLE [" ++ schema ++ "].[" ++ table ++ "]"
                        ++ Py.nl ++ sp8 ++ "ADD CONSTRAINT [")
                     (Py.lstrip (fk_sql schema table fk)) = true).
Proof.
  split; [|split].
  - split; [apply create_table_executed|].
    split; [reflexivity|]. unfold guarded. rewrite lstrip_create_sql.
    split; [reflexivity | prefix_solve].
  - destruct (create_indexes_executed schema table indexes sql)
      as (done & rest & stmts & Hi & Hm & Hf & Hr).
    exists done, rest, stmts.
    split; [exact Hi|]. split; [exact Hf|]. split; [|exact Hr].
    clear Hi Hf Hr. revert stmts Hm.
    induction done as [|idx done IH]; intros [|stmt stmts] Hm;
      try discriminate; constructor.
    + simpl in Hm. injection Hm as Hs _.
      split; [exact Hs|].
      unfold index_stmt in Hs. destruct (index_cols (snd idx)); [discriminate|].
      injection Hs as <-. unfold guarded. rewrite lstrip_index_sql.
      split; [reflexivity|]. unfold index_name. prefix_solve.
    + simpl in Hm. injection Hm as _ Hm. now apply IH.
  - split; [apply create_foreign_keys_executed|].
    intros fk. unfold guarded. rewrite lstrip_fk_sql.
    split; [reflexivity | prefix_solve].
Qed.

(** C7: a column definition ends with the marker NULL exactly when the
    column is nullable and not autoincrement; an autoincrement column gets
    NOT NULL whatever its nullability, and so does a non-nullable column.
    The column list of the CREATE TABLE statement is made of these
    definitions. *)
Theorem col_def_nullability (c : column) :
  let sql_type :=
    map_pg_type (c_data_type c) (c_length c) (c_precision c) (c_scale c)
                (c_is_serial c) in
  (c_nullable c = true -> c_is_serial c = false ->
     null_str c = "NULL"
     /\ col_def c = "[" ++ c_name c ++ "] " ++ sql_type ++ " NULL")
  /\ (c_is_serial c = true ->
     null_str c = "NOT NULL"
     /\ col_def c = "[" ++ c_name c ++ "] INT IDENTITY(1,1) NOT NULL")
  /\ (c_nullable c = false ->
     null_str c = "NOT NULL"
     /\ col_def c = "[" ++ c_name c ++ "] " ++ sql_type ++ " NOT NULL")
  /\ (forall schema table columns pk,
        In c columns ->
        occurs_in (col_def c) (create_sql schema table columns pk)).
Proof.
  intros sql_type.
  split; [|split; [|split]]; [unfold col_def, null_str; fold sql_type ..|].
  - intros -> ->. split; reflexivity.
  - intros Hs. subst sql_type. rewrite Hs, Bool.andb_false_r.
    split; reflexivity.
  - intros ->. split; reflexivity.
  - intros schema table columns pk Hin.
    apply (occurs_in_trans _ (Py.join ", " (map col_def columns))).
    + apply occurs_in_join. now apply in_map.
    + apply create_sql_columns.
Qed.

Lemma col_def_nullability_witness :
  col_def created_at = "[created_at] DATETIME2 NULL"
  /\ col_def id_serial = "[id] INT IDENTITY(1,1) NOT NULL".
Proof.
  split.
  - exact (proj2 (proj1 (col_def_nullability created_at) eq_refl eq_refl)).
  - exact (proj2 (proj1 (proj2 (col_def_nullability id_serial)) eq_refl)).
Defined.

(** C8: the CREATE TABLE statement of a table with a primary key names the
    constraint PK_{schema}_{table}; the statement for an index names it
    IX_{schema}_{table}_{indexname}, in the guard and in CREATE INDEX alike;
    the statement for a foreign key names the constraint
    FK_{schema}_{table}_{constraintname}. *)
Theorem ddl_naming_convention (schema table : string) :
  (forall columns pk, pk <> [] ->
     exists head,
       create_sql schema table columns pk
         = head ++ ", CONSTRAINT [PK_" ++ schema ++ "_" ++ table
             ++ "] PRIMARY KEY (" ++ Py.join ", " (map bracket pk) ++ ")"
             ++ Py.nl ++ sp8 ++ ");" ++ Py.nl ++ sp4)
  /\ (forall name idxdef stmt,
        index_stmt schema table (name, idxdef) = inr stmt ->
        exists col_list,
          Py.lstrip stmt
            = "IF NOT EXISTS (" ++ Py.nl ++ sp16
              ++ "SELECT 1 FROM sys.indexes WHERE name='IX_" ++ schema ++ "_"
              ++ table ++ "_" ++ name ++ "'"
              ++ Py.nl ++ sp12 ++ ")"
              ++ Py.nl ++ sp12 ++ "CREATE " ++ unique_kw idxdef
              ++ " INDEX [IX_" ++ schema ++ "_" ++ table ++ "_" ++ name ++ "]"
              ++ Py.nl ++ sp12 ++ "ON [" ++ schema ++ "].[" ++ table ++ "] ("
              ++ col_list ++ ");" ++ Py.nl ++ sp8)
  /\ (forall fk,
        prefix ("ALTER TABLE [" ++ schema ++ "].[" ++ table ++ "]"
                  ++ Py.nl ++ sp8 ++ "ADD CONSTRAINT [FK_" ++ schema ++ "_"
                  ++ table ++ "_" ++ fk_name fk ++ "]" ++ Py.nl)
               (Py.lstrip (fk_sql schema table fk)) = true).
Proof.
  split; [|split].
  - intros columns [|k pk] Hpk; [contradiction|].
    unfold create_sql, pk_clause, pk_name.
    exists (Py.nl ++ sp8 ++ table_guard schema table ++ Py.nl ++ sp8
              ++ "CREATE TABLE [" ++ schema ++ "].[" ++ table ++ "] ("
              ++ Py.nl ++ sp12 ++ Py.join ", " (map col_def columns)
              ++ Py.nl ++ sp12).
    rewrite !append_assoc. reflexivity.
  - intros name idxdef stmt. unfold index_stmt. simpl fst. simpl snd.
    destruct (index_cols idxdef) as [e|cols]; [discriminate|].
    intros [= <-].
    exists (Py.join ", " (map (fun c => bracket (Py.strip c)) cols)).
    rewrite lstrip_index_sql. unfold index_name.
    rewrite !append_assoc. reflexivity.
  - intros fk. rewrite lstrip_fk_sql. prefix_solve.
Qed.

Lemma ddl_naming_convention_witness :
  (exists head,
     create_sql "public" "users" [id_serial] ["id"]
       = head ++ ", CONSTRAINT [PK_public_users] PRIMARY KEY ([id])"
           ++ Py.nl ++ sp8 ++ ");" ++ Py.nl ++ sp4)
  /\ (exists col_list,
        Py.lstrip
          (index_sql "public" "users" EmptyString
                     "IX_public_users_users_email_idx"
                     "[email]")
        = "IF NOT EXISTS (" ++ Py.nl ++ sp16
          ++ "SELECT 1 FROM sys.indexes WHERE name='IX_public_users_users_email_idx'"
          ++ Py.nl ++ sp12 ++ ")" ++ Py.nl ++ sp12
          ++ "CREATE  INDEX [IX_public_users_users_email_idx]"
          ++ Py.nl ++ sp12 ++ "ON [public].[users] (" ++ col_list ++ ");"
          ++ Py.nl ++ sp8).
Proof.
  split.
  - apply (proj1 (ddl_naming_convention "public" "users") [id_serial] ["id"]).
    discriminate.
  - apply (proj1 (proj2 (ddl_naming_convention "public" "users"))
             "users_email_idx"
             "CREATE INDEX users_email_idx ON public.users USING btree (email)").
    reflexivity.
Defined.

Lemma unique_kw_cases (idxdef : string) :
  (occurs_ci "unique" idxdef /\ unique_kw idxdef = "UNIQUE")
  \/ (~ occurs_ci "unique" idxdef /\ unique_kw idxdef = EmptyString).
Proof.
  unfold unique_kw. rewrite <- contains_lower_iff.
  destruct (Py.contains "unique" (Py.lower idxdef)); [left | right]; split;
    auto; discriminate.
Qed.

(** C9: the index statement says CREATE UNIQUE INDEX exactly when "unique"
    occurs in the index definition, in any mix of upper and lower case and
    at any place of it: inside a name as well as in the keyword. *)
Theorem unique_detection (idxdef : string) :
  (unique_kw idxdef = "UNIQUE" <-> occurs_ci "unique" idxdef)
  /\ (unique_kw idxdef = EmptyString <-> ~ occurs_ci "unique" idxdef)
  /\ (forall schema table name stmt,
        index_stmt schema table (name, idxdef) = inr stmt ->
        let iname := "IX_" ++ schema ++ "_" ++ table ++ "_" ++ name in
        prefix ("IF NOT EXISTS (" ++ Py.nl ++ sp16
                  ++ "SELECT 1 FROM sys.indexes WHERE name='" ++ iname ++ "'"
                  ++ Py.nl ++ sp12 ++ ")"
                  ++ Py.nl ++ sp12 ++ "CREATE UNIQUE INDEX [" ++ iname ++ "]")
               (Py.lstrip stmt) = true
        <-> occurs_ci "unique" idxdef).
Proof.
  split; [|split].
  - destruct (unique_kw_cases idxdef) as [[H ->]|[H ->]]; split; auto;
      [discriminate | contradiction].
  - destruct (unique_kw_cases idxdef) as [[H ->]|[H ->]]; split; auto;
      [discriminate | contradiction].
  - intros schema table name stmt. unfold index_stmt. simpl fst. simpl snd.
    destruct (index_cols idxdef) as [e|cols]; [discriminate|].
    intros [= <-]. rewrite lstrip_index_sql. unfold index_name.
    rewrite !append_assoc. unfold Py.nl, sp16, sp12, sp8, sp4.
    repeat first [ rewrite prefix_cons | rewrite prefix_app_cancel
                 | progress cbn [append] ].
    destruct (unique_kw_cases idxdef) as [[H ->]|[H ->]].
    + repeat first [ rewrite prefix_cons | rewrite prefix_app_cancel
                   | progress cbn [append] ].
      rewrite prefix_nil. tauto.
    + cbn [append]. split; [discriminate | contradiction].
Qed.

Lemma unique_detection_witness :
  occurs_ci "unique" idx_on_unique_code
  /\ unique_kw idx_on_unique_code = "UNIQUE".
Proof.
  assert (H : occurs_ci "unique" idx_on_unique_code).
  { exists "CREATE INDEX idx_code ON public.items USING btree (", "Unique",
           "_code)". split; reflexivity. }
  split; [exact H|].
  exact (proj2 (proj1 (unique_detection idx_on_unique_code)) H).
Defined.

Section IndexParse.

Variable idxdef : string.

Lemma index_cols_raises :
  ~ occurs_in "(" idxdef \/ ~ occurs_in ")" idxdef ->
  index_cols idxdef = inl ValueError.
Proof.
  unfold index_cols, str_index. intros [H|H]; apply find_None_iff in H.
  - now rewrite H.
  - rewrite H. now destruct (Py.find "(" idxdef).
Qed.

Lemma index_cols_returns (cols : list string) :
  index_cols idxdef = inr cols ->
  occurs_in "(" idxdef /\ occurs_in ")" idxdef.
Proof.
  unfold index_cols, str_index. rewrite <- !contains_iff. unfold Py.contains.
  destruct (Py.find "(" idxdef); [|discriminate].
  destruct (Py.find ")" idxdef); [|discriminate]. auto.
Qed.

Lemma index_cols_between (pre mid post : string) :
  idxdef = pre ++ "(" ++ mid ++ ")" ++ post ->
  ~ occurs_in "(" pre -> ~ occurs_in ")" pre -> ~ occurs_in ")" mid ->
  index_cols idxdef
    = inr (Py.split "," (Py.remove_char Py.dquote_char mid)).
Proof.
  intros -> Ho Hc Hm.
  apply find_None_iff in Ho, Hc, Hm.
  assert (Hopen : Py.find "(" (pre ++ "(" ++ mid ++ ")" ++ post)
                  = Some (String.length pre))
    by (apply (find_char_first "(" pre); exact Ho).
  assert (Hclose : Py.find ")" (pre ++ "(" ++ mid ++ ")" ++ post)
                   = Some (String.length pre + 1 + String.length mid)%nat).
  { rewrite (find_char_skip ")" pre _ Hc).
    change ("(" ++ mid ++ ")" ++ post) with (String "(" (mid ++ String ")" post)).
    rewrite find_char_cons. simpl Ascii.eqb.
    rewrite (find_char_first ")" mid post Hm). simpl. f_equal. lia. }
  unfold index_cols, str_index. rewrite Hopen, Hclose.
  change (pre ++ "(" ++ mid ++ ")" ++ post)
    with (pre ++ String "(" mid ++ (")" ++ post)).
  now rewrite slice_middle.
Qed.

End IndexParse.

(** C10: the column list is the text between the first '(' and the first
    ')' of the index definition, with the double quotes removed, split at
    the commas, each entry trimmed before it is bracketed; a definition
    with no '(' or no ')' raises ValueError, no statement is sent for it and
    the loop over the indexes ends there; nothing else makes the parse
    raise. *)
Theorem index_cols_parse (idxdef : string) :
  (~ occurs_in "(" idxdef \/ ~ occurs_in ")" idxdef ->
     index_cols idxdef = inl ValueError
     /\ forall sql schema table name rest,
          create_indexes sql schema table ((name, idxdef) :: rest)
            = (sql, Some ValueError))
  /\ (forall pre mid post,
        idxdef = pre ++ "(" ++ mid ++ ")" ++ post ->
        ~ occurs_in "(" pre -> ~ occurs_in ")" pre -> ~ occurs_in ")" mid ->
        index_cols idxdef
          = inr (Py.split "," (Py.remove_char Py.dquote_char mid)))
  /\ (forall cols,
        index_cols idxdef = inr cols ->
        (occurs_in "(" idxdef /\ occurs_in ")" idxdef)
        /\ forall schema table name,
             index_stmt schema table (name, idxdef)
               = inr (index_sql schema table (unique_kw idxdef)
                        (index_name schema table name)
                        (Py.join ", "
                           (map (fun c => "[" ++ Py.strip c ++ "]") cols)))).
Proof.
  split; [|split].
  - intros H. pose proof (index_cols_raises idxdef H) as Hr.
    split; [exact Hr|]. intros sql schema table name rest.
    cbn [create_indexes]. rewrite create_index_stmt. unfold index_stmt.
    simpl snd. now rewrite Hr.
  - apply index_cols_between.
  - intros cols Hc. split; [exact (index_cols_returns idxdef cols Hc)|].
    intros schema table name. unfold index_stmt. simpl snd. simpl fst.
    now rewrite Hc.
Qed.

Lemma index_cols_parse_witness :
  index_cols "CREATE INDEX i ON public.t" = inl ValueError
  /\ index_cols idx_two_columns = inr ["a"; " B"].
Proof.
  split.
  - apply (proj1 (index_cols_parse "CREATE INDEX i ON public.t")).
    left. apply find_None_iff. reflexivity.
  - apply (proj1 (proj2 (index_cols_parse idx_two_columns))
             "CREATE INDEX i ON public.t USING btree "
             ("a, " ++ Py.dquote ++ "B" ++ Py.dquote) EmptyString).
    + reflexivity.
    + apply find_None_iff. reflexivity.
    + apply find_None_iff. reflexivity.
    + apply find_None_iff. reflexivity.
Defined.

(* ================================================================= *)
(** ** The program on sample inputs *)

(** The users table of the end-to-end scenario: serial primary key, a
    varchar(255) not null, a nullable timestamp. *)
Example create_table_users :
  create_table [] "public" "users" [id_serial; email_col; created_at] ["id"]
  = [ Execute ("IF NOT EXISTS (SELECT 1 FROM sys.schemas WHERE name='public') "
                 ++ "EXEC('CREATE SCHEMA [public]');");
      Execute (Py.nl ++ sp8 ++ "IF OBJECT_ID('public.users', 'U') IS NULL"
                 ++ Py.nl ++ sp8 ++ "CREATE TABLE [public].[users] ("
                 ++ Py.nl ++ sp12 ++ "[id] INT IDENTITY(1,1) NOT NULL, "
                 ++ "[email] NVARCHAR(255) NOT NULL, "
                 ++ "[created_at] DATETIME2 NULL"
                 ++ Py.nl ++ sp12
                 ++ ", CONSTRAINT [PK_public_users] PRIMARY KEY ([id])"
                 ++ Py.nl ++ sp8 ++ ");" ++ Py.nl ++ sp4) ].
Proof. reflexivity. Qed.

(** Five rows in batches of two: three bulk inserts, the last one short. *)
Example copy_data_five_rows :
  match copy_data 2 five_rows [] "public" "t" [id_serial] with
  | inr st =>
      batches (cs_sql st)
        = [ [[VInt 1]; [VInt 2]]; [[VInt 3]; [VInt 4]]; [[VInt 5]] ]
      /\ cs_copied st = 5
      /\ cs_log st = [ "Copying 5 rows from public.t"; "  Copied 2/5";
                       "  Copied 4/5"; "  Copied 5/5" ]
  | inl _ => False
  end.
Proof. vm_compute. repeat split. Qed.

(** A definition without parentheses stops the loop after the statements
    already sent. *)
Example create_indexes_stops :
  create_indexes [] "public" "t"
    [ ("a_idx", "CREATE INDEX a_idx ON public.t USING btree (a)");
      ("broken", "CREATE INDEX broken ON public.t");
      ("b_idx", "CREATE INDEX b_idx ON public.t USING btree (b)") ]
  = ([ Execute (index_sql "public" "t" EmptyString "IX_public_t_a_idx" "[a]") ],
     Some ValueError).
Proof. reflexivity. Qed.

(** An expression index is cut at the first closing parenthesis. *)
Example index_cols_expression :
  index_cols "CREATE INDEX i ON t USING btree (lower((email)::text))"
  = inr ["lower((email"].
Proof. reflexivity. Qed.

(* ================================================================= *)
(** * Further properties of the code *)

(** ** Type mapper *)

Lemma lower_char_idem (c : ascii) :
  Py.lower_char (Py.lower_char c) = Py.lower_char c.
Proof.
  destruct c as [b0 b1 b2 b3 b4 b5 b6 b7].
  destruct b0, b1, b2, b3, b4, b5, b6, b7; reflexivity.
Qed.

Lemma lower_idem (s : string) : Py.lower (Py.lower s) = Py.lower s.
Proof.
  induction s as [|c s IH]; simpl; [reflexivity|].
  now rewrite lower_char_idem, IH.
Qed.

(** X1: the mapper does not see the case of the letters of a type name: two
    names that agree once lower-cased are mapped alike, and lower-casing a
    name beforehand changes nothing. *)
Theorem map_pg_type_case_insensitive (t1 t2 : string)
    (length precision scale : option Z) (is_serial : bool) :
  Py.lower t1 = Py.lower t2 ->
  map_pg_type t1 length precision scale is_serial
    = map_pg_type t2 length precision scale is_serial
  /\ map_pg_type (Py.lower t1) length precision scale is_serial
    = map_pg_type t2 length precision scale is_serial.
Proof.
  intros H. unfold map_pg_type. rewrite lower_idem, H. split; reflexivity.
Qed.

Lemma map_pg_type_case_insensitive_witness :
  map_pg_type "Character Varying" (Some 80) None None false
    = map_pg_type "CHARACTER VARYING" (Some 80) None None false
  /\ map_pg_type (Py.lower "Character Varying") (Some 80) None None false
    = map_pg_type "CHARACTER VARYING" (Some 80) None None false.
Proof.
  apply (map_pg_type_case_insensitive "Character Varying" "CHARACTER VARYING").
  reflexivity.
Defined.

Lemma mapping_values_fixed (k t : string) :
  dict_get k mapping = Some t -> In t fixed_types.
Proof.
  unfold mapping, fixed_types. simpl.
  repeat (destruct (String.eqb k _); [intros [= <-]; tauto|]).
  discriminate.
Qed.

(** X2: whatever the input, the mapper returns one of the ten fixed type
    names, or NVARCHAR(n) with n not zero and at most 4000, or DECIMAL(p,s)
    with p and s not zero: never NVARCHAR(0), never a bounded NVARCHAR above
    4000, never a DECIMAL of precision or scale 0. *)
Theorem map_pg_type_range (pg_type : string)
    (length precision scale : option Z) (is_serial : bool) :
  target_type (map_pg_type pg_type length precision scale is_serial).
Proof.
  unfold map_pg_type, target_type.
  destruct is_serial; [left; simpl; tauto|].
  destruct (dict_get _ mapping) eqn:Hd;
    [left; now apply mapping_values_fixed in Hd|].
  destruct (String.eqb _ "character varying").
  - destruct length as [n|]; [|left; simpl; tauto]. simpl.
    destruct (Z.eqb_spec n 0); simpl; [left; simpl; tauto|].
    destruct (Z.ltb_spec 4000 n); [left; simpl; tauto|].
    right; left. exists n. repeat split; [assumption | lia].
  - destruct (String.eqb _ "text"); [left; simpl; tauto|].
    destruct (_ || _)%bool; [|left; simpl; tauto].
    right; right.
    exists (Py.or_default precision 18), (Py.or_default scale 4).
    repeat split.
    + unfold Py.or_default. destruct precision as [p|]; [|discriminate].
      destruct (Z.eqb_spec p 0); [discriminate | assumption].
    + unfold Py.or_default. destruct scale as [s|]; [|discriminate].
      destruct (Z.eqb_spec s 0); [discriminate | assumption].
Qed.

(** X3: the length only matters for 'character varying', the precision and
    the scale only for 'numeric' and 'decimal': for any other type name the
    result is the same whatever they are. *)
Theorem map_pg_type_ignores (pg_type : string) (is_serial : bool)
    (length length' precision precision' scale scale' : option Z) :
  (Py.lower pg_type <> "character varying" ->
     map_pg_type pg_type length precision scale is_serial
       = map_pg_type pg_type length' precision scale is_serial)
  /\ (Py.lower pg_type <> "numeric" -> Py.lower pg_type <> "decimal" ->
     map_pg_type pg_type length precision scale is_serial
       = map_pg_type pg_type length precision' scale' is_serial).
Proof.
  unfold map_pg_type. split.
  - intros H. apply String.eqb_neq in H. now rewrite H.
  - intros H1 H2. apply String.eqb_neq in H1, H2. now rewrite H1, H2.
Qed.

Lemma map_pg_type_ignores_witness :
  map_pg_type "character" (Some 10) None None false
    = map_pg_type "character" None None None false
  /\ map_pg_type "bigint" None (Some 64) (Some 0) false
    = map_pg_type "bigint" None None None false.
Proof.
  split.
  - apply (proj1 (map_pg_type_ignores "character" false (Some 10) None
                    None None None None)). discriminate.
  - apply (proj2 (map_pg_type_ignores "bigint" false None None
                    (Some 64) None (Some 0) None)); discriminate.
Defined.

(* ================================================================= *)
(** ** From the catalog row to the column definition *)

Lemma is_serial_of_iff (d : option string) :
  is_serial_of d = true <-> exists rest, d = Some ("nextval" ++ rest).
Proof.
  unfold is_serial_of. destruct d as [s|].
  - rewrite Bool.andb_true_iff, prefix_iff. split.
    + intros [_ [rest ->]]. now exists rest.
    + intros [rest [= ->]]. split; [reflexivity | now exists rest].
  - split; [discriminate | intros [rest H]; discriminate].
Qed.

(** X4: get_columns flags a column as serial exactly when its default is a
    text that begins with "nextval", in lower case; such a column is then
    defined as INT IDENTITY(1,1) NOT NULL whatever its data type (a bigint
    included) and whatever its nullability. *)
Theorem serial_column_definition (r : catalog_row) :
  (c_is_serial (column_of_row r) = true
     <-> exists rest, r_column_default r = Some ("nextval" ++ rest))
  /\ (forall rest, r_column_default r = Some ("nextval" ++ rest) ->
        col_def (column_of_row r)
          = "[" ++ r_column_name r ++ "] INT IDENTITY(1,1) NOT NULL").
Proof.
  split; [apply is_serial_of_iff|].
  intros rest Hd.
  assert (Hs : c_is_serial (column_of_row r) = true)
    by (apply is_serial_of_iff; eauto).
  unfold col_def, null_str. rewrite Hs, Bool.andb_false_r. reflexivity.
Qed.

Lemma serial_column_definition_witness :
  col_def (column_of_row bigserial_row) = "[id] INT IDENTITY(1,1) NOT NULL".
Proof.
  apply (proj2 (serial_column_definition bigserial_row)
           "('t_id_seq'::regclass)").
  reflexivity.
Defined.

(** X5: for a column that is not serial (no default, or a default that does
    not begin with "nextval"), the definition carries the type mapped from
    the catalog's data type, length, precision and scale, and the marker
    NULL exactly when is_nullable is the text YES, in upper case; any other
    text gives NOT NULL. *)
Theorem plain_column_definition (r : catalog_row) :
  is_serial_of (r_column_default r) = false ->
  let sql_type :=
    map_pg_type (r_data_type r) (r_character_maximum_length r)
                (r_numeric_precision r) (r_numeric_scale r) false in
  (r_is_nullable r = "YES" ->
     col_def (column_of_row r)
       = "[" ++ r_column_name r ++ "] " ++ sql_type ++ " NULL")
  /\ (r_is_nullable r <> "YES" ->
     col_def (column_of_row r)
       = "[" ++ r_column_name r ++ "] " ++ sql_type ++ " NOT NULL").
Proof.
  intros Hs sql_type. unfold col_def, null_str, column_of_row. simpl.
  rewrite Hs. fold sql_type. split.
  - intros ->. reflexivity.
  - intros Hn. apply String.eqb_neq in Hn. rewrite Hn. reflexivity.
Qed.

Lemma plain_column_definition_witness :
  col_def (column_of_row note_row) = "[note] NVARCHAR(MAX) NOT NULL".
Proof.
  apply (proj2 (plain_column_definition note_row eq_refl)). discriminate.
Defined.

(* ================================================================= *)
(** ** Index definitions *)

Section IndexLoop.

Variables (schema table : string).

Lemma index_cols_inl (idxdef : string) (e : exn) :
  index_cols idxdef = inl e ->
  e = ValueError /\ ~ (occurs_in "(" idxdef /\ occurs_in ")" idxdef).
Proof.
  unfold index_cols, str_index. rewrite <- !contains_iff. unfold Py.contains.
  destruct (Py.find "(" idxdef).
  - destruct (Py.find ")" idxdef); [discriminate|].
    intros [= <-]. split; [reflexivity | intros [_ H]; discriminate].
  - intros [= <-]. split; [reflexivity | intros [H _]; discriminate].
Qed.

Lemma index_stmt_parses (idx : string * string) :
  parses idx ->
  index_stmt schema table idx = inr (index_stmt_of schema table idx).
Proof.
  intros Hp. unfold index_stmt_of, index_stmt.
  destruct (index_cols (snd idx)) as [e|cols] eqn:Hc; [|reflexivity].
  apply index_cols_inl in Hc as [_ Hc]. contradiction.
Qed.

Lemma index_stmt_fails (idx : string * string) :
  ~ parses idx -> index_stmt schema table idx = inl ValueError.
Proof.
  intros Hp. unfold index_stmt.
  destruct (index_cols (snd idx)) as [e|cols] eqn:Hc.
  - apply index_cols_inl in Hc as [-> _]. reflexivity.
  - apply index_cols_returns in Hc. contradiction.
Qed.

Lemma parses_dec (idx : string * string) : parses idx \/ ~ parses idx.
Proof.
  unfold parses. rewrite <- !contains_iff.
  destruct (Py.contains "(" (snd idx)), (Py.contains ")" (snd idx));
    intuition discriminate.
Qed.

Lemma create_indexes_good (good : list (string * string))
    (rest : list (string * string)) (sql : sql_cursor) :
  Forall parses good ->
  create_indexes sql schema table (good ++ rest)%list
    = create_indexes
        (sql ++ map (fun idx => Execute (index_stmt_of schema table idx)) good)%list
        schema table rest.
Proof.
  intros Hg. revert sql. induction Hg as [|idx good Hp _ IH]; intros sql.
  - simpl. now rewrite app_nil_r.
  - cbn [app create_indexes map]. rewrite create_index_stmt.
    rewrite (index_stmt_parses idx Hp). rewrite IH.
    unfold sql_execute. now rewrite <- app_assoc.
Qed.

End IndexLoop.

(** X6: create_indexes ends without an exception exactly when every index
    definition has a '(' and a ')'; it has then sent one statement per
    index, in the order of the list, after what the cursor had already
    received. *)
Theorem create_indexes_succeeds (sql : sql_cursor) (schema table : string)
    (indexes : list (string * string)) :
  (snd (create_indexes sql schema table indexes) = None
     <-> Forall parses indexes)
  /\ (Forall parses indexes ->
      create_indexes sql schema table indexes
        = ((sql ++ map (fun idx => Execute (index_stmt_of schema table idx))
                       indexes)%list, None)).
Proof.
  assert (Hok : Forall parses indexes ->
      create_indexes sql schema table indexes
        = ((sql ++ map (fun idx => Execute (index_stmt_of schema table idx))
                       indexes)%list, None)).
  { intros H. rewrite <- (app_nil_r indexes) at 1.
    now rewrite (create_indexes_good schema table indexes [] sql H). }
  split; [|exact Hok]. split; [|intros H; now rewrite (Hok H)].
  revert sql Hok. induction indexes as [|idx indexes IH]; intros sql _ Hn;
    [constructor|].
  cbn [create_indexes] in Hn. rewrite create_index_stmt in Hn.
  destruct (parses_dec idx) as [Hp|Hp].
  - constructor; [exact Hp|].
    rewrite (index_stmt_parses schema table idx Hp) in Hn.
    apply (IH (sql_execute (index_stmt_of schema table idx) sql)); [|exact Hn].
    intros H. rewrite <- (app_nil_r indexes) at 1.
    now rewrite (create_indexes_good schema table indexes [] _ H).
  - rewrite (index_stmt_fails schema table idx Hp) in Hn. discriminate.
Qed.

Lemma create_indexes_succeeds_witness :
  create_indexes [] "public" "t"
    [ ("a_idx", "CREATE INDEX a_idx ON public.t USING btree (a)");
      ("b_idx", "CREATE UNIQUE INDEX b_idx ON public.t USING btree (b)") ]
  = ([ Execute (index_sql "public" "t" EmptyString "IX_public_t_a_idx" "[a]");
       Execute (index_sql "public" "t" "UNIQUE" "IX_public_t_b_idx" "[b]") ],
     None).
Proof.
  apply (proj2 (create_indexes_succeeds [] "public" "t"
    [ ("a_idx", "CREATE INDEX a_idx ON public.t USING btree (a)");
      ("b_idx", "CREATE UNIQUE INDEX b_idx ON public.t USING btree (b)") ])).
  repeat constructor; apply contains_iff; reflexivity.
Defined.

Lemma create_indexes_stops_at_first_bad_lemma (sql : sql_cursor)
    (schema table : string) (good rest : list (string * string))
    (bad : string * string) :
  Forall parses good -> ~ parses bad ->
  create_indexes sql schema table (good ++ bad :: rest)%list
    = ((sql ++ map (fun idx => Execute (index_stmt_of schema table idx)) good)%list,
       Some ValueError).
Proof.
  intros Hg Hb. rewrite (create_indexes_good schema table good _ sql Hg).
  cbn [create_indexes]. rewrite create_index_stmt.
  now rewrite (index_stmt_fails schema table bad Hb).
Qed.

Lemma create_indexes_all_good (sql : sql_cursor) (schema table : string)
    (indexes : list (string * string)) :
  Forall parses indexes ->
  create_indexes sql schema table indexes
    = ((sql ++ map (fun idx => Execute (index_stmt_of schema table idx))
                   indexes)%list, None).
Proof.
  intros H. rewrite <- (app_nil_r indexes) at 1.
  now rewrite (create_indexes_good schema table indexes [] sql H).
Qed.

(** X7: when the first definition without a '(' or a ')' comes after some
    definitions that have both, create_indexes raises ValueError having sent
    the statements of those before it and nothing else: the indexes after
    it are never created. *)
Theorem create_indexes_stops_at_first_bad (sql : sql_cursor)
    (schema table : string) (good rest : list (string * string))
    (bad : string * string) :
  Forall parses good -> ~ parses bad ->
  create_indexes sql schema table (good ++ bad :: rest)%list
    = ((sql ++ map (fun idx => Execute (index_stmt_of schema table idx)) good)%list,
       Some ValueError).
Proof.
  intros Hg Hb. rewrite (create_indexes_good schema table good _ sql Hg).
  cbn [create_indexes]. rewrite create_index_stmt.
  now rewrite (index_stmt_fails schema table bad Hb).
Qed.

Lemma create_indexes_stops_at_first_bad_witness :
  create_indexes [] "public" "t"
    [ ("a_idx", "CREATE INDEX a_idx ON public.t USING btree (a)");
      ("broken", "CREATE INDEX broken ON public.t");
      ("b_idx", "CREATE INDEX b_idx ON public.t USING btree (b)") ]
  = ([ Execute (index_sql "public" "t" EmptyString "IX_public_t_a_idx" "[a]") ],
     Some ValueError).
Proof.
  apply (create_indexes_stops_at_first_bad [] "public" "t"
    [ ("a_idx", "CREATE INDEX a_idx ON public.t USING btree (a)") ]
    [ ("b_idx", "CREATE INDEX b_idx ON public.t USING btree (b)") ]
    ("broken", "CREATE INDEX broken ON public.t")).
  - repeat constructor; apply contains_iff; reflexivity.
  - intros [H _]. apply contains_iff in H. discriminate.
Defined.

Section ColumnList.

Lemma find_char_append_None (c : ascii) (a b : string) :
  Py.find (char c) a = None -> Py.find (char c) b = None ->
  Py.find (char c) (a ++ b) = None.
Proof. intros Ha Hb. now rewrite (find_char_skip c a b Ha), Hb. Qed.

Lemma find_char_join_None (c : ascii) (sep : string) (es : list string) :
  Py.find (char c) sep = None ->
  Forall (fun e => Py.find (char c) e = None) es ->
  Py.find (char c) (Py.join sep es) = None.
Proof.
  intros Hs H. unfold Py.join. induction H as [|e es He Hes IH]; [reflexivity|].
  destruct es as [|e' es]; [exact He|].
  change (concat sep (e :: e' :: es)) with (e ++ sep ++ concat sep (e' :: es)).
  now repeat apply find_char_append_None.
Qed.

Lemma remove_char_append (q : ascii) (a b : string) :
  Py.remove_char q (a ++ b) = Py.remove_char q a ++ Py.remove_char q b.
Proof.
  induction a as [|x a IH]; simpl; [reflexivity|].
  destruct (Ascii.eqb x q); simpl; now rewrite IH.
Qed.

Lemma remove_char_join (q : ascii) (es : list string) :
  Ascii.eqb "," q = false -> Ascii.eqb " " q = false ->
  Py.remove_char q (Py.join ", " es)
    = Py.join ", " (map (Py.remove_char q) es).
Proof.
  intros H1 H2. unfold Py.join. induction es as [|e es IH]; [reflexivity|].
  destruct es as [|e' es]; [reflexivity|].
  change (concat ", " (e :: e' :: es)) with (e ++ ", " ++ concat ", " (e' :: es)).
  cbn [map].
  change (concat ", " (Py.remove_char q e :: Py.remove_char q e'
                         :: map (Py.remove_char q) es))
    with (Py.remove_char q e ++ ", "
            ++ concat ", " (map (Py.remove_char q) (e' :: es))).
  assert (Hsep : Py.remove_char q ", " = ", ")
    by (cbn [Py.remove_char]; now rewrite H1, H2).
  rewrite !remove_char_append, IH, Hsep. reflexivity.
Qed.

Lemma remove_char_keeps_None (c q : ascii) (s : string) :
  Py.find (char c) s = None -> Py.find (char c) (Py.remove_char q s) = None.
Proof.
  induction s as [|x s IH]; [reflexivity|]. rewrite find_char_cons.
  destruct (Ascii.eqb c x) eqn:E; [discriminate|].
  destruct (Py.find (char c) s); [discriminate|]. intros _. simpl.
  destruct (Ascii.eqb x q); [now apply IH|].
  rewrite find_char_cons, E. now rewrite IH.
Qed.

Lemma split_no_sep (c : ascii) (s : string) :
  Py.find (char c) s = None -> Py.split c s = [s].
Proof.
  induction s as [|x s IH]; [reflexivity|]. rewrite find_char_cons.
  destruct (Ascii.eqb c x) eqn:E; [discriminate|].
  destruct (Py.find (char c) s); [discriminate|]. intros _. simpl.
  rewrite Ascii.eqb_sym, E. now rewrite IH.
Qed.

Lemma split_at_sep (c : ascii) (a b : string) :
  Py.find (char c) a = None ->
  Py.split c (a ++ String c b) = a :: Py.split c b.
Proof.
  induction a as [|x a IH].
  - intros _. simpl. now rewrite Ascii.eqb_refl.
  - rewrite find_char_cons. destruct (Ascii.eqb c x) eqn:E; [discriminate|].
    destruct (Py.find (char c) a); [discriminate|]. intros _. simpl.
    rewrite Ascii.eqb_sym, E. now rewrite IH.
Qed.

Lemma split_cons_other (c x : ascii) (s : string) :
  Ascii.eqb x c = false ->
  Py.split c (String x s)
    = match Py.split c s with
      | [] => [String x EmptyString]
      | w :: ws => String x w :: ws
      end.
Proof. intros E. simpl. now rewrite E. Qed.

(** Splitting a ", "-joined list at the commas gives the entries back, all
    but the first with the blank in front. *)
Lemma split_join (es : list string) (e : string) :
  Forall (fun x => Py.find (char ",") x = None) (e :: es) ->
  Py.split "," (Py.join ", " (e :: es)) = e :: map (append " ") es.
Proof.
  revert e. induction es as [|e' es IH]; intros e H.
  - inversion H; subst. now apply split_no_sep.
  - inversion H as [|? ? He Hes]; subst. unfold Py.join.
    change (concat ", " (e :: e' :: es))
      with (e ++ String "," (String " " (concat ", " (e' :: es)))).
    rewrite (split_at_sep "," e _ He).
    rewrite split_cons_other by reflexivity.
    fold (Py.join ", " (e' :: es)). rewrite (IH e' Hes). reflexivity.
Qed.

Lemma strip_blank (s : string) : Py.strip (" " ++ s) = Py.strip s.
Proof. reflexivity. Qed.

Lemma substring_zero (n : nat) (s : string) : substring n 0 s = EmptyString.
Proof.
  revert n. induction s as [|c s IH]; intros [|n]; simpl; auto.
Qed.

End ColumnList.

(** X8: for a definition whose first parenthesis opens a list of entries
    joined by ", " and closed by the first ')' (entries without a comma or
    a parenthesis), the index statement lists the entries in their order,
    each with its double quotes removed, trimmed and put in brackets. *)
Theorem index_column_list (schema table name pre post : string)
    (e : string) (es : list string) :
  ~ occurs_in "(" pre -> ~ occurs_in ")" pre ->
  Forall (fun x => ~ occurs_in "," x /\ ~ occurs_in ")" x) (e :: es) ->
  let idxdef := pre ++ "(" ++ Py.join ", " (e :: es) ++ ")" ++ post in
  index_stmt schema table (name, idxdef)
    = inr (index_sql schema table (unique_kw idxdef)
             (index_name schema table name)
             (Py.join ", "
                (map (fun x => "[" ++ Py.strip (Py.remove_char Py.dquote_char x)
                                   ++ "]") (e :: es)))).
Proof.
  intros Hpo Hpc Hes idxdef.
  assert (Hcomma : Forall (fun x => Py.find (char ",") x = None) (e :: es)).
  { eapply Forall_impl; [|exact Hes]. intros x [H _]. now apply find_None_iff. }
  assert (Hclose : Forall (fun x => Py.find (char ")") x = None) (e :: es)).
  { eapply Forall_impl; [|exact Hes]. intros x [_ H]. now apply find_None_iff. }
  assert (Hmid : ~ occurs_in ")" (Py.join ", " (e :: es))).
  { apply find_None_iff. apply (find_char_join_None ")"); [reflexivity|].
    exact Hclose. }
  unfold index_stmt. cbn [fst snd].
  rewrite (index_cols_between idxdef pre (Py.join ", " (e :: es)) post
             eq_refl Hpo Hpc Hmid).
  rewrite remove_char_join by reflexivity. cbn [map].
  rewrite split_join.
  - do 2 f_equal. cbn [map]. rewrite !map_map. f_equal.
  - change (Forall (fun x => Py.find (char ",") x = None)
              (map (Py.remove_char Py.dquote_char) (e :: es))).
    apply Forall_map. eapply Forall_impl; [|exact Hcomma].
    intros x Hx. now apply remove_char_keeps_None.
Qed.

Lemma index_column_list_witness :
  index_stmt "public" "t"
    ("t_ab", "CREATE INDEX t_ab ON public.t USING btree (" ++ "a, "
               ++ Py.dquote ++ "B c" ++ Py.dquote ++ ")" ++ " WHERE (a > 0)")
  = inr (index_sql "public" "t" EmptyString "IX_public_t_t_ab" "[a], [B c]").
Proof.
  apply (index_column_list "public" "t" "t_ab"
           "CREATE INDEX t_ab ON public.t USING btree " " WHERE (a > 0)"
           "a" [Py.dquote ++ "B c" ++ Py.dquote]).
  - apply find_None_iff. reflexivity.
  - apply find_None_iff. reflexivity.
  - repeat constructor; apply find_None_iff; reflexivity.
Defined.

(** X9: when the first ')' of a definition comes before its first '(', the
    parse does not raise: the slice is empty, the column list is the single
    empty name, and the statement is sent with the column list []. *)
Theorem index_reversed_parentheses (schema table name pre mid post : string) :
  ~ occurs_in "(" pre -> ~ occurs_in ")" pre -> ~ occurs_in "(" mid ->
  let idxdef := pre ++ ")" ++ mid ++ "(" ++ post in
  index_cols idxdef = inr [EmptyString]
  /\ index_stmt schema table (name, idxdef)
     = inr (index_sql schema table (unique_kw idxdef)
              (index_name schema table name) "[]").
Proof.
  intros Hpo Hpc Hm idxdef.
  apply find_None_iff in Hpo, Hpc, Hm.
  assert (Hclose : Py.find ")" idxdef = Some (String.length pre))
    by (apply (find_char_first ")" pre); exact Hpc).
  assert (Hopen : Py.find "(" idxdef
                  = Some (String.length pre + 1 + String.length mid)%nat).
  { unfold idxdef. rewrite (find_char_skip "(" pre _ Hpo).
    change (")" ++ mid ++ "(" ++ post) with (String ")" (mid ++ String "(" post)).
    rewrite find_char_cons. simpl Ascii.eqb.
    rewrite (find_char_first "(" mid post Hm). simpl. f_equal. lia. }
  assert (Hcols : index_cols idxdef = inr [EmptyString]).
  { unfold index_cols, str_index. rewrite Hopen, Hclose. unfold Py.slice.
    replace (String.length pre
             - (String.length pre + 1 + String.length mid + 1))%nat
      with 0%nat by lia.
    now rewrite substring_zero. }
  split; [exact Hcols|].
  unfold index_stmt. cbn [fst snd]. now rewrite Hcols.
Qed.

Lemma index_reversed_parentheses_witness :
  index_cols "CREATE INDEX i ON t) USING btree (a" = inr [EmptyString].
Proof.
  apply (proj1 (index_reversed_parentheses "s" "t" "i"
                  "CREATE INDEX i ON t" " USING btree " "a"
                  ltac:(apply find_None_iff; reflexivity)
                  ltac:(apply find_None_iff; reflexivity)
                  ltac:(apply find_None_iff; reflexivity))).
Defined.

(** X10: create_foreign_keys sends one ALTER TABLE per catalog row, in the
    order of the rows, and never raises; two rows that carry the same
    constraint name (the rows of a composite foreign key) give two
    statements that add a constraint of the same name, each on its own
    single column. *)
Theorem foreign_keys_one_statement_per_row (sql : sql_cursor)
    (schema table : string) (fks : list foreign_key) :
  let added := map (fun fk => Execute (fk_sql schema table fk)) fks in
  create_foreign_keys sql schema table fks = (sql ++ added)%list
  /\ List.length added = List.length fks
  /\ forall fk1 fk2, In fk1 fks -> In fk2 fks -> fk_name fk1 = fk_name fk2 ->
       exists head,
         head = Py.nl ++ sp8 ++ "ALTER TABLE [" ++ schema ++ "].[" ++ table
                  ++ "]" ++ Py.nl ++ sp8 ++ "ADD CONSTRAINT [FK_" ++ schema
                  ++ "_" ++ table ++ "_" ++ fk_name fk1 ++ "]" ++ Py.nl ++ sp8
                  ++ "FOREIGN KEY (["
         /\ In (Execute (fk_sql schema table fk1)) added
         /\ In (Execute (fk_sql schema table fk2)) added
         /\ prefix (head ++ fk_column fk1 ++ "])") (fk_sql schema table fk1)
            = true
         /\ prefix (head ++ fk_column fk2 ++ "])") (fk_sql schema table fk2)
            = true.
Proof.
  intros added. split; [apply create_foreign_keys_executed|].
  split; [apply length_map|].
  intros fk1 fk2 H1 H2 Hn. eexists. split; [reflexivity|].
  split; [apply (in_map (fun fk => Execute (fk_sql schema table fk))), H1|].
  split; [apply (in_map (fun fk => Execute (fk_sql schema table fk))), H2|].
  unfold fk_sql, fk_constraint_name. rewrite <- Hn.
  split; prefix_solve.
Qed.

(* ================================================================= *)
(** ** Data copy: the batches, the progress lines, the queries *)

Section Chunks.

Variable size : nat.

Lemma firstn_nonempty_skipn (rows : list row) :
  firstn size rows <> [] ->
  (List.length (skipn size rows) < List.length rows)%nat.
Proof.
  intros H. destruct size as [|n]; [now elim H|].
  destruct rows as [|r rows]; [now elim H|].
  simpl. rewrite length_skipn. lia.
Qed.

Lemma chunks_of_fuel (f1 f2 : nat) (rows : list row) :
  (List.length rows <= f1)%nat -> (List.length rows <= f2)%nat ->
  chunks_of f1 size rows = chunks_of f2 size rows.
Proof.
  revert f2 rows. induction f1 as [|f1 IH]; intros [|f2] rows H1 H2;
    try reflexivity.
  - destruct rows; [|simpl in H1; lia]. simpl. now rewrite firstn_nil.
  - destruct rows; [|simpl in H2; lia]. simpl. now rewrite firstn_nil.
  - simpl. destruct (firstn size rows) as [|r batch] eqn:Hf; [reflexivity|].
    f_equal. assert (Hne : firstn size rows <> []) by (rewrite Hf; discriminate).
    apply firstn_nonempty_skipn in Hne. apply IH; lia.
Qed.

Lemma chunks_unfold (rows : list row) :
  chunks size rows
    = match firstn size rows with
      | [] => []
      | batch => batch :: chunks size (skipn size rows)
      end.
Proof.
  unfold chunks. destruct rows as [|r rows].
  - simpl. now rewrite firstn_nil.
  - cbn [List.length chunks_of].
    destruct (firstn size (r :: rows)) as [|r0 batch] eqn:Hf; [reflexivity|].
    f_equal. assert (Hne : firstn size (r :: rows) <> [])
      by (rewrite Hf; discriminate).
    apply firstn_nonempty_skipn in Hne. simpl in Hne.
    apply chunks_of_fuel; lia.
Qed.

Lemma chunks_ind (P : list row -> list (list row) -> Prop) :
  (forall rows, firstn size rows = [] -> P rows []) ->
  (forall rows, firstn size rows <> [] ->
     P (skipn size rows) (chunks size (skipn size rows)) ->
     P rows (firstn size rows :: chunks size (skipn size rows))) ->
  forall rows, P rows (chunks size rows).
Proof.
  intros Hnil Hcons rows.
  remember (List.length rows) as n eqn:Hn. revert rows Hn.
  induction n as [n IH] using lt_wf_ind. intros rows ->.
  rewrite chunks_unfold. destruct (firstn size rows) as [|r batch] eqn:Hf.
  - now apply Hnil.
  - rewrite <- Hf. assert (Hne : firstn size rows <> [])
      by (rewrite Hf; discriminate).
    apply Hcons; [exact Hne|].
    apply (IH _ (firstn_nonempty_skipn rows Hne)). reflexivity.
Qed.

Lemma chunks_concat (rows : list row) :
  (0 < size)%nat -> List.concat (chunks size rows) = rows.
Proof.
  intros Hs. apply (chunks_ind (fun rows cs => List.concat cs = rows)).
  - intros r Hf. destruct size; [lia|]. now destruct r.
  - intros r _ IH. simpl. rewrite IH. apply firstn_skipn.
Qed.

Lemma chunks_bounds (rows : list row) :
  Forall (fun b => (1 <= List.length b <= size)%nat) (chunks size rows).
Proof.
  apply (chunks_ind (fun _ cs =>
           Forall (fun b => (1 <= List.length b <= size)%nat) cs)).
  - constructor.
  - intros r Hne IH. constructor; [|exact IH].
    rewrite length_firstn. destruct (firstn size r) eqn:E; [contradiction|].
    apply (f_equal (@List.length row)) in E. rewrite length_firstn in E.
    simpl in E. lia.
Qed.

Lemma chunks_full (rows : list row) :
  Forall (fun b => List.length b = size) (removelast (chunks size rows)).
Proof.
  apply (chunks_ind (fun _ cs =>
           Forall (fun b => List.length b = size) (removelast cs))).
  - constructor.
  - intros r Hne IH.
    destruct (chunks size (skipn size r)) as [|c l] eqn:E; [constructor|].
    change (removelast (firstn size r :: c :: l))
      with (firstn size r :: removelast (c :: l)).
    constructor; [|exact IH].
    rewrite length_firstn. apply Nat.min_l.
    destruct (Nat.le_gt_cases size (List.length r)) as [H|H]; [exact H|].
    rewrite skipn_all2, chunks_unfold, firstn_nil in E by lia. discriminate.
Qed.

End Chunks.

Lemma chunks_zero_or_empty (size : nat) (rows : list row) :
  size = 0%nat \/ rows = [] -> chunks size rows = [].
Proof.
  intros [->| ->]; rewrite chunks_unfold; [reflexivity|].
  now rewrite firstn_nil.
Qed.

(** What the loop does, for any batch size: the bulk inserts are the chunks
    of the pending rows, each followed by one progress line; the counter
    grows by the rows sent; the result set is read to its end. *)
Lemma copy_loop_chunks (BATCH_SIZE : nat) (stmt : string) (total : value)
    (st : copy_state) :
  let cs := chunks BATCH_SIZE (pg_pending (cs_pg st)) in
  let st' := copy_loop BATCH_SIZE stmt total st in
  cs_sql st' = (cs_sql st ++ map (ExecuteMany stmt) cs)%list
  /\ cs_log st'
     = (cs_log st
        ++ map (progress_line total) (running_totals (cs_copied st) cs))%list
  /\ cs_copied st' = cs_copied st + Z.of_nat (List.length (List.concat cs))
  /\ pg_pending (cs_pg st')
     = match BATCH_SIZE with O => pg_pending (cs_pg st) | S _ => [] end
  /\ pg_queries (cs_pg st') = pg_queries (cs_pg st)
  /\ pg_table (cs_pg st') = pg_table (cs_pg st).
Proof.
  funelim (copy_loop BATCH_SIZE stmt total st).
  - match goal with H : firstn _ _ = [] |- _ => rename H into Hfetch end.
    cbn zeta. rewrite chunks_unfold, Hfetch. cbn [map running_totals
      List.concat List.length cs_sql cs_log cs_copied cs_pg pg_pending
      pg_queries pg_table skipn].
    rewrite !app_nil_r. repeat split; try reflexivity; try lia.
    destruct BATCH_SIZE; [reflexivity|].
    now destruct (pg_pending (cs_pg st)).
  - match goal with H : firstn _ _ = _ :: _ |- _ => rename H into Hfetch end.
    match goal with IH : _ /\ _ |- _ =>
      destruct IH as (Hsql & Hlog & Hcop & Hpend & Hq & Ht)
    end.
    cbn zeta.
    rewrite (chunks_unfold BATCH_SIZE (pg_pending (cs_pg st))), Hfetch.
    match goal with |- context [copy_loop ?b ?s ?t ?x] =>
      set (st' := copy_loop b s t x) in *
    end.
    unfold copy_batch in Hsql, Hlog, Hcop, Hpend, Hq, Ht.
    cbn [cs_sql cs_log cs_copied cs_pg pg_pending pg_queries pg_table]
      in Hsql, Hlog, Hcop, Hpend, Hq, Ht.
    set (rest := chunks BATCH_SIZE (skipn BATCH_SIZE (pg_pending (cs_pg st))))
      in *.
    split; [|split; [|split; [|split; [|split]]]].
    + rewrite Hsql. unfold sql_executemany. now rewrite <- app_assoc.
    + rewrite Hlog. rewrite <- app_assoc. reflexivity.
    + rewrite Hcop. cbn [List.concat]. rewrite length_app. lia.
    + rewrite Hpend. destruct BATCH_SIZE; [discriminate | reflexivity].
    + exact Hq.
    + exact Ht.
Qed.

Lemma copy_data_calls (BATCH_SIZE : nat) (pg : pg_cursor) (sql : sql_cursor)
    (schema table : string) (columns : list column) :
  let names := map c_name columns in
  let N := Z.of_nat (List.length (pg_table pg)) in
  let cs := chunks BATCH_SIZE (pg_table pg) in
  exists st : copy_state,
    copy_data BATCH_SIZE pg sql schema table columns = inr st
    /\ cs_sql st
       = (sql ++ map (ExecuteMany
                        (insert_sql schema table
                           (Py.join ", " (map bracket names))
                           (Py.join ", " (map (fun _ => "?") names)))) cs)%list
    /\ cs_log st
       = ("Copying " ++ Py.str_of_int N ++ " rows from " ++ schema ++ "."
            ++ table)
         :: map (progress_line (VInt N)) (running_totals 0 cs)
    /\ cs_copied st = Z.of_nat (List.length (List.concat cs))
    /\ pg_queries (cs_pg st)
       = (pg_queries pg
          ++ [count_query schema table;
              select_query (Py.join ", " (map quoted names)) schema table])%list
    /\ pg_table (cs_pg st) = pg_table pg
    /\ pg_pending (cs_pg st)
       = match BATCH_SIZE with O => pg_table pg | S _ => [] end.
Proof.
  intros names N cs. unfold copy_data, pg_fetchone, pg_execute_count.
  cbn [pg_pending pg_table pg_queries]. fold names. fold N.
  eexists. split; [reflexivity|].
  match goal with |- context [copy_loop ?b ?s ?t ?x] =>
    destruct (copy_loop_chunks b s t x) as (Hsql & Hlog & Hcop & Hpend & Hq & Ht)
  end.
  cbn [cs_sql cs_log cs_copied cs_pg pg_pending pg_queries pg_table
       pg_execute_select] in Hsql, Hlog, Hcop, Hpend, Hq, Ht.
  fold cs in Hsql, Hlog, Hcop.
  rewrite Hsql, Hlog, Hcop, Hpend, Hq, Ht, <- app_assoc.
  repeat split.
Qed.

(** X11: whatever the batch size, every bulk insert of copy_data carries at
    least one row and at most BATCH_SIZE rows, and every bulk insert but the
    last carries exactly BATCH_SIZE rows. *)
Theorem copy_data_batches_full (BATCH_SIZE : nat) (pg : pg_cursor)
    (sql : sql_cursor) (schema table : string) (columns : list column) :
  exists (st : copy_state) (calls : list sql_call),
    copy_data BATCH_SIZE pg sql schema table columns = inr st
    /\ cs_sql st = (sql ++ calls)%list
    /\ forallb is_executemany calls = true
    /\ Forall (fun b => (1 <= List.length b <= BATCH_SIZE)%nat) (batches calls)
    /\ Forall (fun b => List.length b = BATCH_SIZE)
              (removelast (batches calls)).
Proof.
  destruct (copy_data_calls BATCH_SIZE pg sql schema table columns)
    as (st & Hrun & Hsql & _).
  eexists st, _. split; [exact Hrun|]. split; [exact Hsql|].
  rewrite batches_executemany.
  split; [apply forallb_executemany|].
  split; [apply chunks_bounds | apply chunks_full].
Qed.

(** X12: with a batch size of 0, or with an empty source table, copy_data
    returns normally without a single bulk insert: the target cursor is left
    as it was, the counter stays at 0 and the only log line is the one that
    announces the row count.  With a batch size of 0 the rows of a
    non-empty table stay unread. *)
Theorem copy_data_sends_nothing (BATCH_SIZE : nat) (pg : pg_cursor)
    (sql : sql_cursor) (schema table : string) (columns : list column) :
  BATCH_SIZE = 0%nat \/ pg_table pg = [] ->
  exists st : copy_state,
    copy_data BATCH_SIZE pg sql schema table columns = inr st
    /\ cs_sql st = sql
    /\ cs_copied st = 0
    /\ cs_log st
       = ["Copying " ++ Py.str_of_int (Z.of_nat (List.length (pg_table pg)))
            ++ " rows from " ++ schema ++ "." ++ table]
    /\ (BATCH_SIZE = 0%nat -> pg_pending (cs_pg st) = pg_table pg).
Proof.
  intros H.
  destruct (copy_data_calls BATCH_SIZE pg sql schema table columns)
    as (st & Hrun & Hsql & Hlog & Hcop & _ & _ & Hpend).
  rewrite (chunks_zero_or_empty _ _ H) in Hsql, Hlog, Hcop.
  simpl in Hsql, Hlog, Hcop. rewrite app_nil_r in Hsql.
  exists st. repeat split; try assumption.
  intros ->. exact Hpend.
Qed.

Lemma copy_data_sends_nothing_witness :
  exists st : copy_state,
    copy_data 0 five_rows [] "public" "t" [] = inr st
    /\ cs_sql st = [] /\ cs_copied st = 0
    /\ pg_pending (cs_pg st) = pg_table five_rows.
Proof.
  destruct (copy_data_sends_nothing 0 five_rows [] "public" "t" []
              (or_introl eq_refl)) as (st & H1 & H2 & H3 & _ & H5).
  exists st. repeat split; auto.
Defined.

Lemma running_totals_last (acc : Z) (cs : list (list row)) (d : Z) :
  cs <> [] ->
  last (running_totals acc cs) d = acc + Z.of_nat (List.length (List.concat cs)).
Proof.
  revert acc. induction cs as [|b cs IH]; intros acc H; [contradiction|].
  destruct cs as [|b' cs].
  - simpl. rewrite app_nil_r. reflexivity.
  - change (running_totals acc (b :: b' :: cs))
      with ((acc + Z.of_nat (List.length b))
              :: running_totals (acc + Z.of_nat (List.length b)) (b' :: cs)).
    change (last (?x :: running_totals ?a (b' :: cs)) d)
      with (last (running_totals a (b' :: cs)) d).
    rewrite IH by discriminate.
    change (List.concat (b :: b' :: cs)) with (b ++ List.concat (b' :: cs))%list.
    rewrite length_app. lia.
Qed.

Lemma last_of_map {A B : Type} (f : A -> B) (l : list A) (d : A) (d' : B) :
  l <> [] -> last (map f l) d' = f (last l d).
Proof.
  induction l as [|x l IH]; intros H; [contradiction|].
  destruct l as [|y l]; [reflexivity|].
  change (last (map f (x :: y :: l)) d') with (last (map f (y :: l)) d').
  change (last (x :: y :: l) d) with (last (y :: l) d).
  apply IH. discriminate.
Qed.

Lemma running_totals_length (acc : Z) (cs : list (list row)) :
  List.length (running_totals acc cs) = List.length cs.
Proof. revert acc. induction cs; intros; simpl; auto. Qed.

(** X13: with a positive batch size and a source table of N > 0 rows,
    copy_data writes one progress line per bulk insert after the opening
    line, and the last line reads "  Copied N/N". *)
Theorem copy_data_progress (BATCH_SIZE : nat) (pg : pg_cursor)
    (sql : sql_cursor) (schema table : string) (columns : list column) :
  (0 < BATCH_SIZE)%nat -> pg_table pg <> [] ->
  let N := Z.of_nat (List.length (pg_table pg)) in
  exists (st : copy_state) (calls : list sql_call),
    copy_data BATCH_SIZE pg sql schema table columns = inr st
    /\ cs_sql st = (sql ++ calls)%list
    /\ List.length (cs_log st) = S (List.length calls)
    /\ last (cs_log st) EmptyString
       = "  Copied " ++ Py.str_of_int N ++ "/" ++ Py.str_of_int N.
Proof.
  intros HB Hne N.
  destruct (copy_data_calls BATCH_SIZE pg sql schema table columns)
    as (st & Hrun & Hsql & Hlog & _).
  fold N in Hlog.
  eexists st, _. split; [exact Hrun|]. split; [exact Hsql|].
  assert (Hcs : chunks BATCH_SIZE (pg_table pg) <> []).
  { intros E. pose proof (chunks_concat BATCH_SIZE (pg_table pg) HB) as Hc.
    rewrite E in Hc. simpl in Hc. now apply Hne. }
  rewrite Hlog. split.
  - simpl. now rewrite !length_map, running_totals_length.
  - destruct (running_totals 0 (chunks BATCH_SIZE (pg_table pg)))
      as [|k ks] eqn:Hr.
    + apply (f_equal (@List.length Z)) in Hr.
      rewrite running_totals_length in Hr.
      destruct (chunks BATCH_SIZE (pg_table pg)); [contradiction | discriminate].
    + change (last (?x :: map ?f (k :: ks)) EmptyString)
        with (last (map f (k :: ks)) EmptyString).
      rewrite <- Hr.
      rewrite (last_of_map (progress_line (VInt N)) _ 0)
        by (rewrite Hr; discriminate).
      rewrite (running_totals_last 0 _ 0 Hcs), chunks_concat by exact HB.
      reflexivity.
Qed.

Lemma copy_data_progress_witness :
  exists (st : copy_state) (calls : list sql_call),
    copy_data 2 five_rows [] "public" "t" [] = inr st
    /\ cs_sql st = calls
    /\ List.length (cs_log st) = S (List.length calls)
    /\ last (cs_log st) EmptyString = "  Copied 5/5".
Proof.
  apply (copy_data_progress 2 five_rows [] "public" "t" []).
  - lia.
  - discriminate.
Defined.

(** X14: copy_data sends the source exactly two queries, the count and then
    the select, and every bulk insert uses one and the same INSERT
    statement; the select list and the insert column list name the columns
    of the descriptors in the same order, quoted for the source and
    bracketed for the target, with one placeholder per column. *)
Theorem copy_data_statements (BATCH_SIZE : nat) (pg : pg_cursor)
    (sql : sql_cursor) (schema table : string) (columns : list column) :
  let names := map c_name columns in
  exists (st : copy_state) (sent : list (list row)),
    copy_data BATCH_SIZE pg sql schema table columns = inr st
    /\ pg_queries (cs_pg st)
       = app (pg_queries pg)
             [ "SELECT COUNT(" ++ "*" ++ ") FROM " ++ Py.dquote ++ schema
                 ++ Py.dquote ++ "." ++ Py.dquote ++ table ++ Py.dquote;
               "SELECT " ++ Py.join ", " (map quoted names) ++ " FROM "
                 ++ Py.dquote ++ schema ++ Py.dquote ++ "." ++ Py.dquote
                 ++ table ++ Py.dquote ]
    /\ cs_sql st
       = app sql
             (map (ExecuteMany
                     ("INSERT INTO [" ++ schema ++ "].[" ++ table ++ "] ("
                        ++ Py.join ", " (map bracket names) ++ ") VALUES ("
                        ++ Py.join ", " (map (fun _ => "?") names) ++ ")"))
                  sent)
    /\ List.length (map (fun _ : string => "?") names) = List.length columns.
Proof.
  intros names.
  destruct (copy_data_calls BATCH_SIZE pg sql schema table columns)
    as (st & Hrun & Hsql & _ & _ & Hq & _).
  eexists st, _. split; [exact Hrun|]. split; [|split].
  - rewrite Hq. unfold count_query, select_query, quoted.
    fold names. now rewrite !append_assoc.
  - exact Hsql.
  - unfold names. now rewrite !length_map.
Qed.

(* ================================================================= *)
(** ** The orchestrator *)

(** A list either satisfies a decidable property throughout, or splits at
    its first element that does not. *)
Lemma first_failure {A : Type} (P : A -> Prop) (l : list A) :
  (forall x, P x \/ ~ P x) ->
  Forall P l
  \/ exists before x after,
       l = (before ++ x :: after)%list /\ Forall P before /\ ~ P x.
Proof.
  intros Hdec. induction l as [|x l IH]; [left; constructor|].
  destruct (Hdec x) as [Hx|Hx].
  - destruct IH as [IH|(before & y & after & -> & Hb & Hy)].
    + left. now constructor.
    + right. exists (x :: before), y, after. repeat split; auto.
  - right. exists [], x, l. repeat split; auto.
Qed.

Section Orchestrator.

Variables (BATCH_SIZE : nat) (db : source_db).

Lemma indexes_parse_dec (t : string * string) :
  indexes_parse db t \/ ~ indexes_parse db t.
Proof.
  unfold indexes_parse.
  destruct (first_failure parses (get_indexes db (fst t) (snd t)) parses_dec)
    as [H|(before & x & after & E & _ & Hx)]; [now left|].
  right. intros H. rewrite E in H. apply Forall_app in H as [_ H].
  inversion H; subst. contradiction.
Qed.

Lemma migrate_table_copied (pg : pg_cursor) (sql : sql_cursor)
    (schema table : string) :
  exists st : copy_state,
    copy_data BATCH_SIZE (pg_on_table db schema table pg)
      (create_table sql schema table (get_columns db schema table)
         (get_primary_key db schema table))
      schema table (get_columns db schema table) = inr st
    /\ cs_sql st
       = (sql ++ table_calls_before_indexes BATCH_SIZE db (schema, table))%list.
Proof.
  destruct (copy_data_calls BATCH_SIZE (pg_on_table db schema table pg)
              (create_table sql schema table (get_columns db schema table)
                 (get_primary_key db schema table))
              schema table (get_columns db schema table))
    as (st & Hrun & Hsql & _).
  exists st. split; [exact Hrun|].
  rewrite Hsql, create_table_executed. unfold table_calls_before_indexes.
  cbn [pg_on_table pg_table]. now rewrite <- !app_assoc.
Qed.

Lemma migrate_table_ok (pg : pg_cursor) (sql : sql_cursor)
    (t : string * string) :
  indexes_parse db t ->
  exists pg',
    migrate_table BATCH_SIZE db pg sql t
      = (pg', (sql ++ table_calls BATCH_SIZE db t)%list, None).
Proof.
  destruct t as [schema table]. unfold indexes_parse. cbn [fst snd].
  intros Hp. unfold migrate_table.
  destruct (migrate_table_copied pg sql schema table) as (st & -> & Hsql).
  rewrite (create_indexes_all_good (cs_sql st) schema table _ Hp).
  exists (cs_pg st). rewrite create_foreign_keys_executed, Hsql.
  unfold table_calls, table_calls_before_indexes.
  now rewrite <- !app_assoc.
Qed.

Lemma migrate_table_fails (pg : pg_cursor) (sql : sql_cursor)
    (schema table : string) (good rest : list (string * string))
    (bad : string * string) :
  get_indexes db schema table = (good ++ bad :: rest)%list ->
  Forall parses good -> ~ parses bad ->
  exists pg',
    migrate_table BATCH_SIZE db pg sql (schema, table)
      = (pg',
         (sql ++ table_calls_before_indexes BATCH_SIZE db (schema, table)
              ++ map (fun idx => Execute (index_stmt_of schema table idx)) good)%list,
         Some ValueError).
Proof.
  intros Hi Hg Hb. unfold migrate_table.
  destruct (migrate_table_copied pg sql schema table) as (st & -> & Hsql).
  rewrite Hi, (create_indexes_stops_at_first_bad_lemma (cs_sql st) schema table
                 good rest bad Hg Hb).
  exists (cs_pg st). now rewrite Hsql, <- !app_assoc.
Qed.

Lemma migrate_tables_ok (tables : list (string * string)) (pg : pg_cursor)
    (sql : sql_cursor) :
  Forall (indexes_parse db) tables ->
  exists pg',
    migrate_tables BATCH_SIZE db pg sql tables
      = (pg', (sql ++ flat_map (table_calls BATCH_SIZE db) tables)%list, None).
Proof.
  intros H. revert pg sql. induction H as [|t tables Ht _ IH]; intros pg sql.
  - exists pg. simpl. now rewrite app_nil_r.
  - cbn [migrate_tables flat_map].
    destruct (migrate_table_ok pg sql t Ht) as (pg1 & ->).
    destruct (IH pg1 (sql ++ table_calls BATCH_SIZE db t)%list) as (pg2 & ->).
    exists pg2. now rewrite <- app_assoc.
Qed.

Lemma migrate_tables_app (before after : list (string * string))
    (pg : pg_cursor) (sql : sql_cursor) :
  Forall (indexes_parse db) before ->
  exists pg',
    migrate_tables BATCH_SIZE db pg sql (before ++ after)%list
      = migrate_tables BATCH_SIZE db pg'
          (sql ++ flat_map (table_calls BATCH_SIZE db) before)%list after.
Proof.
  intros H. revert pg sql. induction H as [|t tables Ht _ IH]; intros pg sql.
  - exists pg. simpl. now rewrite app_nil_r.
  - cbn [migrate_tables flat_map app].
    destruct (migrate_table_ok pg sql t Ht) as (pg1 & ->).
    destruct (IH pg1 (sql ++ table_calls BATCH_SIZE db t)%list) as (pg2 & ->).
    exists pg2. now rewrite <- app_assoc.
Qed.

End Orchestrator.

Section Migration.

Variables (BATCH_SIZE : nat) (db : source_db).

Lemma migrate_all_parse :
  Forall (indexes_parse db) (get_tables db) ->
  exists pg',
    migrate BATCH_SIZE db
      = (pg', flat_map (table_calls BATCH_SIZE db) (get_tables db), None).
Proof.
  intros H. unfold migrate.
  destruct (migrate_tables_ok BATCH_SIZE db (get_tables db)
              {| pg_table := []; pg_pending := []; pg_queries := [] |} [] H)
    as (pg' & ->).
  now exists pg'.
Qed.

Lemma migrate_first_bad (before after : list (string * string))
    (schema table : string) (good rest : list (string * string))
    (bad : string * string) :
  get_tables db = (before ++ (schema, table) :: after)%list ->
  Forall (indexes_parse db) before ->
  get_indexes db schema table = (good ++ bad :: rest)%list ->
  Forall parses good -> ~ parses bad ->
  exists pg',
    migrate BATCH_SIZE db
      = (pg',
         (flat_map (table_calls BATCH_SIZE db) before
          ++ table_calls_before_indexes BATCH_SIZE db (schema, table)
          ++ map (fun idx => Execute (index_stmt_of schema table idx)) good)%list,
         Some ValueError).
Proof.
  intros Ht Hb Hi Hg Hbad. unfold migrate. rewrite Ht.
  destruct (migrate_tables_app BATCH_SIZE db before ((schema, table) :: after)
              {| pg_table := []; pg_pending := []; pg_queries := [] |} [] Hb)
    as (pg1 & ->).
  cbn [migrate_tables app].
  destruct (migrate_table_fails BATCH_SIZE db pg1
              (flat_map (table_calls BATCH_SIZE db) before)
              schema table good rest bad Hi Hg Hbad) as (pg2 & ->).
  now exists pg2.
Qed.

End Migration.

(** X15: migrate ends without an exception exactly when every index
    definition of every listed table has a '(' and a ')'.  The target has
    then received, for the tables in their listing order and with nothing
    in between, the schema guard, the CREATE TABLE, the bulk inserts, the
    index statements and the foreign-key statements of each table, in that
    order. *)
Theorem migrate_succeeds (BATCH_SIZE : nat) (db : source_db) :
  (snd (migrate BATCH_SIZE db) = None
     <-> Forall (indexes_parse db) (get_tables db))
  /\ (Forall (indexes_parse db) (get_tables db) ->
      snd (fst (migrate BATCH_SIZE db))
        = flat_map (table_calls BATCH_SIZE db) (get_tables db)).
Proof.
  split; [split|].
  - intros Hn.
    destruct (first_failure (indexes_parse db) (get_tables db)
                (indexes_parse_dec db))
      as [H|(before & [schema table] & after & Ht & Hb & Hx)]; [exact H|].
    exfalso.
    destruct (first_failure parses (get_indexes db schema table) parses_dec)
      as [H|(good & bad & rest & Hi & Hg & Hbad)]; [now apply Hx|].
    destruct (migrate_first_bad BATCH_SIZE db before after schema table
                good rest bad Ht Hb Hi Hg Hbad) as (pg' & E).
    rewrite E in Hn. discriminate.
  - intros H. destruct (migrate_all_parse BATCH_SIZE db H) as (pg' & ->).
    reflexivity.
  - intros H. destruct (migrate_all_parse BATCH_SIZE db H) as (pg' & ->).
    reflexivity.
Qed.

(** X16: when the first unparsable index definition is met in some table,
    migrate ends with ValueError.  The tables listed before are complete;
    the failing table has been created and filled and has the indexes that
    precede the bad one; it gets no foreign key, and the tables listed after
    it get nothing at all. *)
Theorem migrate_stops_at_bad_index (BATCH_SIZE : nat) (db : source_db)
    (before after : list (string * string)) (schema table : string)
    (good rest : list (string * string)) (bad : string * string) :
  get_tables db = (before ++ (schema, table) :: after)%list ->
  Forall (indexes_parse db) before ->
  get_indexes db schema table = (good ++ bad :: rest)%list ->
  Forall parses good -> ~ parses bad ->
  snd (migrate BATCH_SIZE db) = Some ValueError
  /\ snd (fst (migrate BATCH_SIZE db))
     = (flat_map (table_calls BATCH_SIZE db) before
        ++ table_calls_before_indexes BATCH_SIZE db (schema, table)
        ++ map (fun idx => Execute (index_stmt_of schema table idx)) good)%list.
Proof.
  intros Ht Hb Hi Hg Hbad.
  destruct (migrate_first_bad BATCH_SIZE db before after schema table
              good rest bad Ht Hb Hi Hg Hbad) as (pg' & ->).
  split; reflexivity.
Qed.

Lemma table_calls_head (BATCH_SIZE : nat) (db : source_db)
    (schema table : string) :
  exists R,
    table_calls BATCH_SIZE db (schema, table)
      = Execute (schema_sql schema)
        :: Execute (create_sql schema table (get_columns db schema table)
                      (get_primary_key db schema table))
        :: R.
Proof. unfold table_calls. eexists. reflexivity. Qed.

Lemma table_calls_tail (BATCH_SIZE : nat) (db : source_db)
    (schema table : string) :
  exists P,
    table_calls BATCH_SIZE db (schema, table)
      = (P ++ map (fun fk => Execute (fk_sql schema table fk))
                  (get_foreign_keys db schema table))%list.
Proof.
  unfold table_calls. eexists. rewrite !app_assoc. reflexivity.
Qed.

(** X17: in a run without exception, a foreign key of a table is added
    before any table listed later is created: the ALTER TABLE of the earlier
    table precedes the CREATE TABLE of the later one in what the target
    receives, also when the foreign key refers to that later table. *)
Theorem migrate_foreign_key_before_later_table (BATCH_SIZE : nat)
    (db : source_db) (l1 l2 l3 : list (string * string))
    (s1 t1 s2 t2 : string) (fk : foreign_key) :
  Forall (indexes_parse db) (get_tables db) ->
  get_tables db = (l1 ++ (s1, t1) :: l2 ++ (s2, t2) :: l3)%list ->
  In fk (get_foreign_keys db s1 t1) ->
  exists a m z,
    snd (fst (migrate BATCH_SIZE db))
      = (a ++ Execute (fk_sql s1 t1 fk)
           :: m ++ Execute (create_sql s2 t2 (get_columns db s2 t2)
                              (get_primary_key db s2 t2))
           :: z)%list.
Proof.
  intros Hp Ht Hfk.
  destruct (migrate_all_parse BATCH_SIZE db Hp) as (pg' & ->).
  cbn [fst snd]. rewrite Ht.
  apply in_split in Hfk as (f1 & f2 & Hfk).
  destruct (table_calls_tail BATCH_SIZE db s1 t1) as (P1 & E1).
  destruct (table_calls_head BATCH_SIZE db s2 t2) as (R2 & E2).
  rewrite flat_map_app. cbn [flat_map]. rewrite flat_map_app. cbn [flat_map].
  rewrite E1, E2, Hfk, map_app. cbn [map].
  exists (flat_map (table_calls BATCH_SIZE db) l1 ++ P1
            ++ map (fun k => Execute (fk_sql s1 t1 k)) f1)%list,
         (map (fun k => Execute (fk_sql s1 t1 k)) f2
            ++ flat_map (table_calls BATCH_SIZE db) l2
            ++ [Execute (schema_sql s2)])%list,
         (R2 ++ flat_map (table_calls BATCH_SIZE db) l3)%list.
  rewrite <- !app_assoc. cbn [app]. rewrite <- ?app_assoc. reflexivity.
Qed.

Lemma batches_app (a b : sql_cursor) :
  batches (a ++ b)%list = (batches a ++ batches b)%list.
Proof. unfold batches. apply flat_map_app. Qed.

Lemma batches_execute {A : Type} (f : A -> string) (l : list A) :
  batches (map (fun x => Execute (f x)) l) = [].
Proof. unfold batches. induction l; simpl; auto. Qed.

Lemma table_calls_batches (BATCH_SIZE : nat) (db : source_db)
    (t : string * string) :
  batches (table_calls BATCH_SIZE db t)
    = chunks BATCH_SIZE (db_rows db (fst t) (snd t)).
Proof.
  destruct t as [schema table]. unfold table_calls. cbn [fst snd].
  rewrite !batches_app, batches_executemany, !batches_execute.
  cbn [batches flat_map app]. now rewrite app_nil_r.
Qed.

(** X18: in a run without exception and with a positive batch size, the
    rows the target receives in its bulk inserts, read in the order of the
    calls, are the rows of the source tables in listing order: every row
    once, none added, none reordered. *)
Theorem migrate_copies_all_rows (BATCH_SIZE : nat) (db : source_db) :
  (0 < BATCH_SIZE)%nat ->
  Forall (indexes_parse db) (get_tables db) ->
  List.concat (batches (snd (fst (migrate BATCH_SIZE db))))
    = flat_map (fun t => db_rows db (fst t) (snd t)) (get_tables db).
Proof.
  intros HB Hp.
  destruct (migrate_all_parse BATCH_SIZE db Hp) as (pg' & ->).
  cbn [fst snd]. clear Hp pg'.
  induction (get_tables db) as [|t tables IH]; [reflexivity|].
  cbn [flat_map]. rewrite batches_app, concat_app, IH.
  now rewrite table_calls_batches, chunks_concat.
Qed.

Lemma sample_db_parses : Forall (indexes_parse sample_db) (get_tables sample_db).
Proof.
  repeat constructor; apply contains_iff; reflexivity.
Qed.

Lemma migrate_succeeds_witness :
  snd (migrate 2 sample_db) = None
  /\ snd (fst (migrate 2 sample_db))
     = flat_map (table_calls 2 sample_db) (get_tables sample_db).
Proof.
  split.
  - apply (proj1 (migrate_succeeds 2 sample_db)), sample_db_parses.
  - apply (proj2 (migrate_succeeds 2 sample_db)), sample_db_parses.
Defined.

Lemma migrate_stops_at_bad_index_witness :
  snd (migrate 2 broken_db) = Some ValueError
  /\ snd (fst (migrate 2 broken_db))
     = table_calls_before_indexes 2 broken_db ("public", "orders").
Proof.
  destruct (migrate_stops_at_bad_index 2 broken_db []
              [("public", "customers")] "public" "orders" []
              [] ("broken", "CREATE INDEX broken ON public.orders"))
    as [He Hs].
  - reflexivity.
  - constructor.
  - reflexivity.
  - constructor.
  - intros [H _]. apply contains_iff in H. discriminate.
  - split; [exact He|]. rewrite Hs. cbn [flat_map map app].
    now rewrite app_nil_r.
Defined.

Lemma migrate_foreign_key_before_later_table_witness :
  exists a m z,
    snd (fst (migrate 2 sample_db))
      = (a ++ Execute (fk_sql "public" "orders" orders_fk)
           :: m ++ Execute (create_sql "public" "customers"
                              (get_columns sample_db "public" "customers")
                              (get_primary_key sample_db "public" "customers"))
           :: z)%list.
Proof.
  apply (migrate_foreign_key_before_later_table 2 sample_db [] [] []
           "public" "orders" "public" "customers" orders_fk).
  - exact sample_db_parses.
  - reflexivity.
  - left. reflexivity.
Defined.

Lemma migrate_copies_all_rows_witness :
  List.concat (batches (snd (fst (migrate 2 sample_db))))
  = [ [VInt 1; VInt 7]; [VInt 2; VInt 7]; [VInt 3; VInt 8];
      [VInt 7; VText "Ada"]; [VInt 8; VText "Grace"] ].
Proof.
  apply (migrate_copies_all_rows 2 sample_db).
  - lia.
  - exact sample_db_parses.
Defined.

(** The sample run, evaluated: orders is listed before customers, so the
    foreign key of orders is sent before customers is created. *)
Example migrate_sample_run :
  match migrate 2 sample_db with
  | (_, sql, e) =>
      e = None
      /\ List.length sql = 9%nat
      /\ nth_error sql 5 = Some (Execute (fk_sql "public" "orders" orders_fk))
      /\ nth_error sql 7
         = Some (Execute (create_sql "public" "customers"
                            (get_columns sample_db "public" "customers")
                            ["id"]))
  end.
Proof. vm_compute. repeat split. Qed.

Lemma foreign_keys_one_statement_per_row_witness :
  create_foreign_keys [] "public" "lines" composite_fk
    = [ Execute (fk_sql "public" "lines" (nth 0 composite_fk orders_fk));
        Execute (fk_sql "public" "lines" (nth 1 composite_fk orders_fk)) ]
  /\ exists head,
       prefix (head ++ "order_id])")
              (fk_sql "public" "lines" (nth 0 composite_fk orders_fk)) = true
       /\ prefix (head ++ "order_rev])")
                 (fk_sql "public" "lines" (nth 1 composite_fk orders_fk)) = true.
Proof.
  destruct (foreign_keys_one_statement_per_row [] "public" "lines" composite_fk)
    as (Hrun & _ & Hsame).
  split; [exact Hrun|].
  destruct (Hsame (nth 0 composite_fk orders_fk) (nth 1 composite_fk orders_fk))
    as (head & _ & _ & _ & H1 & H2).
  - left. reflexivity.
  - right. left. reflexivity.
  - reflexivity.
  - exists head. split; [exact H1 | exact H2].
Defined.
